(** * NeoGhidra headless script: a shallow embedding of
    [scripts/ghidra_decompile.py] and the properties of its report pipeline.

    The script is a thin Jython layer over the Ghidra program API.  The API
    is not part of the repository, so it is taken as an interface
    ([AddressSpace], [Engine]) over which the statements are quantified:

    - a call into the API either answers or raises, and what it does is a
      function of the program database; only [setName] and [createData]
      write to the database;
    - iterators and arrays are the lists they enumerate, and the getters of
      the objects they yield (symbols, functions, instructions, decompiler
      results) are record fields;
    - the global [currentProgram] may be [None], in which case the first
      attribute access on it raises [AttributeError];
    - every exception derives from [Exception], so [except Exception]
      catches it.

    The script's own control flow (iteration, early returns, [try]/[except],
    the order of the calls) is translated function by function, in a state
    and exception monad whose state also records the calls issued and the
    lines printed. *)

From Stdlib Require Import ZArith List String Ascii Bool Lia Sorted.
Import ListNotations.
Local Open Scope string_scope.
Local Open Scope Z_scope.

Set Implicit Arguments.
Set Warnings "-register-all".

(** ** Python values and exceptions *)

(** An exception as the script observes it: [str(e)] and the class name. *)
Record Exception : Type := mkException {
  exc_type : string;
  exc_str : string
}.

(** The result of a call: a value, or a raised exception. *)
Inductive outcome (A : Type) : Type :=
| Ok (a : A)
| Raise (e : Exception).
Arguments Ok {A} a.
Arguments Raise {A} e.

(** The JSON-serialisable values the script builds: [None], booleans,
    strings, lists and dicts.  A dict is an association list in the order the
    literal is written. *)
Inductive value : Type :=
| VNone
| VBool (b : bool)
| VStr (s : string)
| VList (l : list value)
| VDict (d : list (string * value)).

Definition keys (v : value) : list string :=
  match v with
  | VDict d => map fst d
  | _ => []
  end.

Fixpoint assoc (k : string) (d : list (string * value)) : option value :=
  match d with
  | [] => None
  | (k', v) :: d' => if String.eqb k k' then Some v else assoc k d'
  end.

(** [d.get(k)] on a value; [None] when the value is no dict or lacks [k]. *)
Definition field (k : string) (v : value) : option value :=
  match v with
  | VDict d => assoc k d
  | _ => None
  end.

(** ** ['%02x' % n] and the byte column *)

Definition hex_digit (d : Z) : ascii :=
  if d <? 10 then ascii_of_nat (48 + Z.to_nat d)
  else ascii_of_nat (87 + Z.to_nat d).

Fixpoint hex_digits (fuel : nat) (n : Z) (acc : string) : string :=
  match fuel with
  | O => acc
  | S fuel' =>
      let acc' := String (hex_digit (n mod 16)) acc in
      if n / 16 =? 0 then acc' else hex_digits fuel' (n / 16) acc'
  end.

(** ['%x' % n] for [0 <= n]: lowercase digits, no prefix. *)
Definition hex (n : Z) : string :=
  hex_digits (S (Z.to_nat (Z.log2 n))) n "".

(** ['%02x' % n]: a minus sign for negative numbers, then the digits, zero
    padded to a total width of two. *)
Definition format_02x (n : Z) : string :=
  if n <? 0 then "-" ++ hex (- n)
  else
    let s := hex n in
    if (String.length s <? 2)%nat then "0" ++ s else s.

(** [' '.join(['%02x' % (b & 0xff) for b in bs])] *)
Definition render_bytes (bs : list Z) : string :=
  String.concat " " (map (fun b => format_02x (Z.land b 255)) bs).

(** Reading a rendering back, used to state what the digits denote. *)
Definition is_lower_hex (c : ascii) : bool :=
  let n := nat_of_ascii c in
  ((48 <=? n) && (n <=? 57) || (97 <=? n) && (n <=? 102))%nat.

Definition hex_value (c : ascii) : Z :=
  let n := Z.of_nat (nat_of_ascii c) in
  if n <? 58 then n - 48 else n - 87.

Definition two_lower_hex (s : string) (n : Z) : bool :=
  match s with
  | String hi (String lo EmptyString) =>
      is_lower_hex hi && is_lower_hex lo
      && (16 * hex_value hi + hex_value lo =? n)
  | _ => false
  end.

(** Reading a byte column back: pairs of digits separated by one space. *)
Fixpoint decode_bytes (s : string) : list Z :=
  match s with
  | String hi (String lo rest) =>
      (16 * hex_value hi + hex_value lo)
      :: match rest with
         | String sep rest' =>
             if Ascii.eqb sep " " then decode_bytes rest' else []
         | EmptyString => []
         end
  | _ => []
  end.

(** ** The engine interface *)

(** Engine addresses are opaque to the script: it renders them with [str]
    and moves them with [Address.add], which the engine may refuse. *)
Class AddressSpace : Type := {
  Address : Type;
  addr_str : Address -> string;
  addr_add : Address -> Z -> outcome Address
}.

(** [SourceType]: how a symbol's name was established. *)
Inductive SourceType : Type := DEFAULT | ANALYSIS | IMPORTED | USER_DEFINED.

Definition SourceType_str (s : SourceType) : string :=
  match s with
  | DEFAULT => "DEFAULT"
  | ANALYSIS => "ANALYSIS"
  | IMPORTED => "IMPORTED"
  | USER_DEFINED => "USER_DEFINED"
  end.

(** [CodeUnit] comment classes; the script reads [EOL_COMMENT] only. *)
Inductive CommentType : Type :=
  EOL_COMMENT | PRE_COMMENT | POST_COMMENT | PLATE_COMMENT | REPEATABLE_COMMENT.

(** Engine objects, as the getters the script calls on them.  Where the
    script only ever takes [str(...)] of a getter's result the field holds
    that text. *)
Record EntryPoint `{AddressSpace} : Type := {
  ep_getAddress : Address
}.

Record Symbol `{AddressSpace} : Type := {
  sym_getID : Z;
  sym_getName : string;
  sym_getAddress : Address;
  sym_getSymbolType : string;
  sym_getSource : SourceType;
  sym_isExternal : bool;
  sym_isDynamic : bool
}.

Record Function `{AddressSpace} : Type := {
  fn_getName : string;
  fn_getEntryPoint : Address;
  fn_getSignature : string;
  fn_getBody : string
}.

Record Instruction `{AddressSpace} : Type := {
  ins_getAddress : Address;
  ins_getMnemonicString : string;
  ins_getDefaultOperandRepresentation : string;
  ins_getBytes : list Z;
  ins_getLength : Z
}.

(** [DecompileResults]: [getDecompiledFunction()] is [None] when the
    decompiler produced no C text. *)
Record DecompiledCode : Type := {
  dc_getC : string
}.

Record DecompileResults : Type := {
  res_decompileCompleted : bool;
  res_getDecompiledFunction : option DecompiledCode
}.

(** The program API.  [Program] is the state of the analysis database.
    Queries read it; [setName] and [createData] may change it, also when
    they raise.  Iterators and arrays are the lists they enumerate.
    [getAllSymbols] takes the API's [includeDynamicSymbols] flag and
    [getFunctions] its [forward] flag.  The last two fields are services of
    the Jython runtime: the text [traceback.format_exc()] gives for an
    exception being handled, and [json.dumps(v, indent=2)]. *)
Class Engine `{AddressSpace} : Type := {
  Program : Type;
  DataType : Type;
  Data : Type;
  getName : Program -> outcome string;
  getMinAddress : Program -> outcome Address;
  getImageBase : Program -> outcome Address;
  getLanguageID : Program -> outcome string;
  getExternalEntryPointIterator : Program -> outcome (list EntryPoint);
  getAllSymbols : bool -> Program -> outcome (list Symbol);
  getSymbols : Address -> Program -> outcome (list Symbol);
  setName : Symbol -> string -> SourceType -> Program -> outcome unit * Program;
  getFunctions : bool -> Program -> outcome (list Function);
  getFunctionContaining : Address -> Program -> outcome (option Function);
  getInstructionAt : Address -> Program -> outcome (option Instruction);
  getComment : CommentType -> Address -> Program -> outcome (option string);
  getDataAt : Address -> Program -> outcome (option Data);
  createData : Address -> DataType -> Program -> outcome unit * Program;
  getAddress : string -> Program -> outcome Address;
  new_DataTypeParser : outcome unit;
  parse : string -> outcome DataType;
  new_DecompInterface : outcome unit;
  openProgram : option Program -> outcome unit;
  decompileFunction : Function -> Z -> outcome (option DecompileResults);
  new_ConsoleTaskMonitor : outcome unit;
  format_exc : Exception -> string;
  json_dumps : value -> outcome string
}.

(** ** The script's world and its monad *)

Section Script.

Context {AS : AddressSpace} {E : Engine}.

(** Engine calls, as recorded in the order the script issues them. *)
Inductive Call : Type :=
| CGetName
| CGetMinAddress
| CGetImageBase
| CGetLanguageID
| CGetExternalEntryPointIterator
| CGetAllSymbols (includeDynamicSymbols : bool)
| CGetSymbols (a : Address)
| CSetName (s : Symbol) (name : string) (source : SourceType)
| CGetFunctions (forward : bool)
| CGetFunctionContaining (a : Address)
| CGetInstructionAt (a : Address)
| CGetComment (t : CommentType) (a : Address)
| CGetDataAt (a : Address)
| CCreateData (a : Address) (t : DataType)
| CGetAddress (text : string)
| CNewDataTypeParser
| CParse (text : string)
| CNewDecompInterface
| COpenProgram
| CDecompileFunction (f : Function) (timeout : Z)
| CNewConsoleTaskMonitor
| CJsonDumps (v : value).

(** What the script runs against: the global [currentProgram] ([None] when
    the host bound no program), the calls issued so far, the lines printed
    so far. *)
Record World : Type := mkWorld {
  currentProgram : option Program;
  calls : list Call;
  stdout : list string
}.

Definition M (A : Type) : Type := World -> outcome A * World.

Definition ret {A} (a : A) : M A := fun w => (Ok a, w).

Definition bind {A B} (m : M A) (k : A -> M B) : M B :=
  fun w =>
    match m w with
    | (Ok a, w') => k a w'
    | (Raise e, w') => (Raise e, w')
    end.

(** [try: m  except Exception as e: h e].  Every fault of the engine is
    taken to derive from [Exception]. *)
Definition try_except {A} (m : M A) (h : Exception -> M A) : M A :=
  fun w =>
    match m w with
    | (Ok a, w') => (Ok a, w')
    | (Raise e, w') => h e w'
    end.

Definition record_call (c : Call) (w : World) : World :=
  {| currentProgram := currentProgram w;
     calls := calls w ++ [c];
     stdout := stdout w |}.

(** Attribute access on [None]. *)
Definition AttributeError (attr : string) : Exception :=
  {| exc_type := "AttributeError";
     exc_str := "'NoneType' object has no attribute '" ++ attr ++ "'" |}.

(** A call that starts with [currentProgram.attr()] and reads the program. *)
Definition query {A} (attr : string) (c : Call) (f : Program -> outcome A) : M A :=
  fun w =>
    match currentProgram w with
    | None => (Raise (AttributeError attr), w)
    | Some p => (f p, record_call c w)
    end.

(** [currentProgram.attr()] for a plain accessor such as [getListing()],
    whose result the next call is made on. *)
Definition accessor (attr : string) : M unit :=
  fun w =>
    match currentProgram w with
    | None => (Raise (AttributeError attr), w)
    | Some _ => (Ok tt, w)
    end.

(** A call that may write to the program. *)
Definition mutate {A} (attr : string) (c : Call)
    (f : Program -> outcome A * Program) : M A :=
  fun w =>
    match currentProgram w with
    | None => (Raise (AttributeError attr), w)
    | Some p =>
        let (r, p') := f p in
        (r, {| currentProgram := Some p';
               calls := calls w ++ [c];
               stdout := stdout w |})
    end.

(** A call that does not go through [currentProgram]. *)
Definition invoke {A} (c : Call) (r : outcome A) : M A :=
  fun w => (r, record_call c w).

Definition print (line : string) : M unit :=
  fun w =>
    (Ok tt, {| currentProgram := currentProgram w;
               calls := calls w;
               stdout := stdout w ++ [line] |}).

End Script.

Declare Scope script_scope.
Delimit Scope script_scope with script.
Notation "x <- m ;; k" := (bind m (fun x => k))
  (at level 61, m at next level, right associativity) : script_scope.
Notation "m ;;; k" := (bind m (fun _ => k))
  (at level 61, right associativity) : script_scope.
Local Open Scope script_scope.

(** ** The script *)

Section Functions.

Context {AS : AddressSpace} {E : Engine}.

(** [get_entry_point()] *)
Definition get_entry_point : M Address :=
  entry_points <- query "getSymbolTable" CGetExternalEntryPointIterator
                    getExternalEntryPointIterator ;;
  match entry_points with
  | ep :: _ => ret (ep_getAddress ep)
  | [] => query "getMinAddress" CGetMinAddress getMinAddress
  end.

(** [decompile_function(decompiler, function)]; the timeout is the literal
    30.  A Java object is truthy exactly when it is not [None]. *)
Definition decompile_function (function : option Function) : M value :=
  match function with
  | None => ret VNone
  | Some f =>
      results <- invoke (CDecompileFunction f 30) (decompileFunction f 30) ;;
      match results with
      | Some r =>
          if res_decompileCompleted r then
            match res_getDecompiledFunction r with
            | Some decomp_code =>
                ret (VDict [("name", VStr (fn_getName f));
                            ("entry_point", VStr (addr_str (fn_getEntryPoint f)));
                            ("code", VStr (dc_getC decomp_code));
                            ("signature", VStr (fn_getSignature f));
                            ("body", VStr (fn_getBody f))])
            | None => ret VNone
            end
          else ret VNone
      | None => ret VNone
      end
  end.

(** The record appended for one decoded instruction; [comment] is what
    [getComment] answered, and [x or ''] maps [None] and [''] to ['']. *)
Definition instruction_record (instr : Instruction) (comment : option string) : value :=
  VDict [("address", VStr (addr_str (ins_getAddress instr)));
         ("mnemonic", VStr (ins_getMnemonicString instr));
         ("operands", VStr (ins_getDefaultOperandRepresentation instr));
         ("bytes", VStr (render_bytes (ins_getBytes instr)));
         ("comment", VStr (match comment with
                           | Some c => c
                           | None => ""
                           end))].

(** The body of [for _ in range(num_instructions)], with the rounds left. *)
Fixpoint disassembly_loop (rounds : nat) (current_addr : Address)
    (instructions : list value) : M (list value) :=
  match rounds with
  | O => ret instructions
  | S rounds' =>
      instr <- query "getListing" (CGetInstructionAt current_addr)
                 (getInstructionAt current_addr) ;;
      match instr with
      | None => ret instructions
      | Some i =>
          comment <- query "getListing" (CGetComment EOL_COMMENT current_addr)
                       (getComment EOL_COMMENT current_addr) ;;
          next <- (fun w => (addr_add (ins_getAddress i) (ins_getLength i), w)) ;;
          disassembly_loop rounds' next
            (instructions ++ [instruction_record i comment])
      end
  end.

(** [get_disassembly(address, num_instructions)]; [range(n)] is empty for
    [n <= 0]. *)
Definition get_disassembly (address : Address) (num_instructions : Z)
    : M (list value) :=
  accessor "getListing" ;;;
  disassembly_loop (Z.to_nat num_instructions) address [].

Definition symbol_record (symbol : Symbol) : value :=
  VDict [("name", VStr (sym_getName symbol));
         ("address", VStr (addr_str (sym_getAddress symbol)));
         ("type", VStr (sym_getSymbolType symbol));
         ("source", VStr (SourceType_str (sym_getSource symbol)))].

(** [get_symbols()] *)
Definition get_symbols : M (list value) :=
  all <- query "getSymbolTable" (CGetAllSymbols false) (getAllSymbols false) ;;
  ret (map symbol_record (filter (fun symbol => negb (sym_isExternal symbol)) all)).

Definition function_record (func : Function) : value :=
  VDict [("name", VStr (fn_getName func));
         ("entry_point", VStr (addr_str (fn_getEntryPoint func)));
         ("signature", VStr (fn_getSignature func));
         ("body_range", VStr (fn_getBody func))].

(** [get_functions()] *)
Definition get_functions : M (list value) :=
  all <- query "getFunctionManager" (CGetFunctions true) (getFunctions true) ;;
  ret (map function_record all).

Definition mutation_result (success : bool) (message : string) : value :=
  VDict [("success", VBool success); ("message", VStr message)].

(** [rename_symbol(address_str, new_name)]; the [for] loop returns in its
    first round. *)
Definition rename_symbol (address_str new_name : string) : M value :=
  try_except
    (address <- query "getAddressFactory" (CGetAddress address_str)
                  (getAddress address_str) ;;
     symbols <- query "getSymbolTable" (CGetSymbols address) (getSymbols address) ;;
     match symbols with
     | symbol :: _ =>
         mutate "setName" (CSetName symbol new_name USER_DEFINED)
           (setName symbol new_name USER_DEFINED) ;;;
         ret (mutation_result true ("Renamed to " ++ new_name))
     | [] => ret (mutation_result false "No symbol found at address")
     end)
    (fun e => ret (mutation_result false (exc_str e))).

(** [set_data_type(address_str, type_str)] *)
Definition set_data_type (address_str type_str : string) : M value :=
  try_except
    (address <- query "getAddressFactory" (CGetAddress address_str)
                  (getAddress address_str) ;;
     invoke CNewDataTypeParser new_DataTypeParser ;;;
     data_type <- invoke (CParse type_str) (parse type_str) ;;
     data <- query "getListing" (CGetDataAt address) (getDataAt address) ;;
     match data with
     | Some _ =>
         mutate "createData" (CCreateData address data_type)
           (createData address data_type) ;;;
         ret (mutation_result true ("Set type to " ++ type_str))
     | None => ret (mutation_result false "No data at address")
     end)
    (fun e => ret (mutation_result false (exc_str e))).

(** The [try] block of [analyze_program()]. *)
Definition analyze_body : M value :=
  invoke CNewDecompInterface new_DecompInterface ;;;
  (fun w => invoke COpenProgram (openProgram (currentProgram w)) w) ;;;
  entry_addr <- get_entry_point ;;
  entry_function <- query "getFunctionManager" (CGetFunctionContaining entry_addr)
                      (getFunctionContaining entry_addr) ;;
  entry_decompiled <- match entry_function with
                      | Some f => decompile_function (Some f)
                      | None => ret VNone
                      end ;;
  functions <- get_functions ;;
  symbols <- get_symbols ;;
  disassembly <- get_disassembly entry_addr 100 ;;
  program_name <- query "getName" CGetName getName ;;
  image_base <- query "getImageBase" CGetImageBase getImageBase ;;
  language <- query "getLanguageID" CGetLanguageID getLanguageID ;;
  ret (VDict [("program_name", VStr program_name);
              ("entry_point", VStr (addr_str entry_addr));
              ("entry_function", entry_decompiled);
              ("functions", VList functions);
              ("symbols", VList symbols);
              ("disassembly", VList disassembly);
              ("image_base", VStr (addr_str image_base));
              ("language", VStr language)]).

(** The [except] block: [currentProgram.getName() if currentProgram else
    'unknown'] is evaluated last. *)
Definition analyze_handler (e : Exception) : M value :=
  program_name <- (fun w =>
                     match currentProgram w with
                     | Some _ => query "getName" CGetName getName w
                     | None => ret "unknown" w
                     end) ;;
  ret (VDict [("error", VBool true);
              ("message", VStr (exc_str e));
              ("traceback", VStr (format_exc e));
              ("program_name", VStr program_name)]).

(** [analyze_program()] *)
Definition analyze_program : M value :=
  try_except analyze_body analyze_handler.

Definition JSON_START : string := "__NEOGHIDRA_JSON_START__".
Definition JSON_END : string := "__NEOGHIDRA_JSON_END__".

(** The [__main__] block. *)
Definition main : M unit :=
  invoke CNewConsoleTaskMonitor new_ConsoleTaskMonitor ;;;
  result <- analyze_program ;;
  print JSON_START ;;;
  text <- invoke (CJsonDumps result) (json_dumps result) ;;
  print text ;;;
  print JSON_END.

End Functions.

(** ** An in-memory engine

    A small implementation of the interface over lists, with addresses as
    offsets in a 32-bit space and a list of API methods that are made to
    raise.  It provides the concrete programs the statements below are
    evaluated on. *)

Module Mem.

Definition max_offset : Z := 4294967295.

Definition fault (type text : string) : Exception :=
  {| exc_type := type; exc_str := text |}.

#[global] Instance space : AddressSpace := {|
  Address := Z;
  addr_str := hex;
  addr_add := fun a n =>
    if (0 <=? a + n) && (a + n <=? max_offset) then Ok (a + n)
    else Raise (fault "AddressOutOfBoundsException" "Address Overflow in add")
|}.

Record program : Type := {
  name : string;
  image_base : Z;
  language : string;
  min_address : Z;
  entry_points : list Z;
  symbols : list Symbol;
  functions : list (Z * Z * Function);
  instructions : list Instruction;
  comments : list (Z * string);
  data : list (Z * string);
  broken : list string
}.

(** [r], unless [method] is among the methods made to raise. *)
Definition guard {A} (method : string) (p : program) (r : outcome A) : outcome A :=
  if existsb (String.eqb method) (broken p)
  then Raise (fault "IOException" (method ++ ": database is closed"))
  else r.

Definition hex_char_value (c : ascii) : option Z :=
  if is_lower_hex c then Some (hex_value c) else None.

Fixpoint parse_hex (s : string) (acc : Z) : option Z :=
  match s with
  | EmptyString => Some acc
  | String c s' =>
      match hex_char_value c with
      | Some d => parse_hex s' (16 * acc + d)
      | None => None
      end
  end.

Definition parse_address (text : string) : outcome Z :=
  match text with
  | EmptyString => Raise (fault "AddressFormatException" "empty address")
  | _ =>
      match parse_hex text 0 with
      | Some a => Ok a
      | None => Raise (fault "AddressFormatException" ("bad address: " ++ text))
      end
  end.

Definition known_types : list string := ["byte"; "char"; "short"; "int"; "long"].

Fixpoint lookup {A} (a : Z) (l : list (Z * A)) : option A :=
  match l with
  | [] => None
  | (k, v) :: l' => if k =? a then Some v else lookup a l'
  end.

Definition rename (s : Symbol) (new_name : string) (source : SourceType)
    (t : Symbol) : Symbol :=
  if sym_getID t =? sym_getID s then
    {| sym_getID := sym_getID t;
       sym_getName := new_name;
       sym_getAddress := sym_getAddress t;
       sym_getSymbolType := sym_getSymbolType t;
       sym_getSource := source;
       sym_isExternal := sym_isExternal t;
       sym_isDynamic := sym_isDynamic t |}
  else t.

Definition with_symbols (p : program) (l : list Symbol) : program :=
  {| name := name p; image_base := image_base p; language := language p;
     min_address := min_address p; entry_points := entry_points p;
     symbols := l; functions := functions p;
     instructions := instructions p; comments := comments p;
     data := data p; broken := broken p |}.

Definition with_data (p : program) (l : list (Z * string)) : program :=
  {| name := name p; image_base := image_base p; language := language p;
     min_address := min_address p; entry_points := entry_points p;
     symbols := symbols p; functions := functions p;
     instructions := instructions p; comments := comments p;
     data := l; broken := broken p |}.

Definition quote (s : string) : string :=
  String "034"%char (s ++ String "034"%char "").

Fixpoint dumps (v : value) : string :=
  match v with
  | VNone => "null"
  | VBool true => "true"
  | VBool false => "false"
  | VStr s => quote s
  | VList l => "[" ++ String.concat ", " (map dumps l) ++ "]"
  | VDict d =>
      "{" ++ String.concat ", "
               (map (fun kv => quote (fst kv) ++ ": " ++ dumps (snd kv)) d)
          ++ "}"
  end.

(** Python 2's [json.dumps] decodes byte strings as UTF-8 and raises
    [UnicodeDecodeError] when that fails; this serialiser takes ASCII text
    only. *)
Definition ascii_text (s : string) : bool :=
  forallb (fun c => (nat_of_ascii c <? 128)%nat) (list_ascii_of_string s).

Fixpoint ascii_only (v : value) : bool :=
  match v with
  | VStr s => ascii_text s
  | VList l => forallb ascii_only l
  | VDict d => forallb (fun kv => ascii_text (fst kv) && ascii_only (snd kv)) d
  | _ => true
  end.

Definition set_name (s : Symbol) (new_name : string) (source : SourceType)
    (p : program) : outcome unit * program :=
  if String.eqb new_name "" then
    (Raise (fault "InvalidInputException" "name is empty"), p)
  else if existsb (String.eqb "setName") (broken p) then
    (Raise (fault "IOException" "setName: database is closed"), p)
  else
    (Ok tt, with_symbols p (map (rename s new_name source) (symbols p))).

Definition instruction_at (p : program) (a : Z) : option Instruction :=
  find (fun i => ins_getAddress i =? a) (instructions p).

Definition eol_comment_at (p : program) (a : Z) : option string :=
  lookup a (comments p).

#[global] Instance engine : Engine := {|
  Program := program;
  DataType := string;
  Data := string;
  getName := fun p => guard "getName" p (Ok (name p));
  getMinAddress := fun p => guard "getMinAddress" p (Ok (min_address p));
  getImageBase := fun p => guard "getImageBase" p (Ok (image_base p));
  getLanguageID := fun p => guard "getLanguageID" p (Ok (language p));
  getExternalEntryPointIterator := fun p =>
    guard "getExternalEntryPointIterator" p
      (Ok (map (fun a => {| ep_getAddress := a |}) (entry_points p)));
  getAllSymbols := fun includeDynamicSymbols p =>
    guard "getAllSymbols" p
      (Ok (filter (fun s => includeDynamicSymbols || negb (sym_isDynamic s))
             (symbols p)));
  getSymbols := fun a p =>
    guard "getSymbols" p
      (Ok (filter (fun s => sym_getAddress s =? a) (symbols p)));
  setName := set_name;
  getFunctions := fun forward p =>
    guard "getFunctions" p
      (Ok (map snd (if forward then functions p else rev (functions p))));
  getFunctionContaining := fun a p =>
    guard "getFunctionContaining" p
      (Ok (option_map snd
             (find (fun r => (fst (fst r) <=? a) && (a <=? snd (fst r)))
                (functions p))));
  getInstructionAt := fun a p =>
    guard "getInstructionAt" p (Ok (instruction_at p a));
  getComment := fun t a p =>
    guard "getComment" p
      (Ok (match t with
           | EOL_COMMENT => eol_comment_at p a
           | _ => None
           end));
  getDataAt := fun a p => guard "getDataAt" p (Ok (lookup a (data p)));
  createData := fun a t p =>
    (guard "createData" p (Ok tt),
     if existsb (String.eqb "createData") (broken p) then p
     else with_data p ((a, t) :: data p));
  getAddress := fun text p => guard "getAddress" p (parse_address text);
  new_DataTypeParser := Ok tt;
  parse := fun text =>
    if existsb (String.eqb text) known_types then Ok text
    else Raise (fault "InvalidDataTypeException" ("unknown type: " ++ text));
  new_DecompInterface := Ok tt;
  openProgram := fun _ => Ok tt;
  decompileFunction := fun f timeout =>
    if String.eqb (fn_getBody f) "" then Ok None
    else if String.eqb (fn_getSignature f) "" then
      Ok (Some {| res_decompileCompleted := false;
                  res_getDecompiledFunction := None |})
    else
      Ok (Some {| res_decompileCompleted := true;
                  res_getDecompiledFunction :=
                    Some {| dc_getC := fn_getSignature f ++ " { }" |} |});
  new_ConsoleTaskMonitor := Ok tt;
  format_exc := fun e =>
    "Traceback (most recent call last): " ++ exc_type e ++ ": " ++ exc_str e;
  json_dumps := fun v =>
    if ascii_only v then Ok (dumps v)
    else Raise (fault "UnicodeDecodeError"
                  "'utf8' codec can't decode byte: invalid start byte")
|}.


(** Sample programs: one function at 0x1000 spanning ten bytes, which is
    also the entry point; a second label on the entry, a dynamic label, an
    external symbol, and one defined datum at 0x2000. *)

Definition main_fn : Function :=
  {| fn_getName := "main"; fn_getEntryPoint := 4096;
     fn_getSignature := "int main(void)";
     fn_getBody := "[[00001000, 00001009]]" |}.

Definition sym_main : Symbol :=
  {| sym_getID := 1; sym_getName := "main"; sym_getAddress := 4096;
     sym_getSymbolType := "Function"; sym_getSource := IMPORTED;
     sym_isExternal := false; sym_isDynamic := false |}.

Definition sym_entry : Symbol :=
  {| sym_getID := 2; sym_getName := "entry"; sym_getAddress := 4096;
     sym_getSymbolType := "Label"; sym_getSource := ANALYSIS;
     sym_isExternal := false; sym_isDynamic := false |}.

Definition sym_lab : Symbol :=
  {| sym_getID := 3; sym_getName := "LAB_00001003"; sym_getAddress := 4099;
     sym_getSymbolType := "Label"; sym_getSource := DEFAULT;
     sym_isExternal := false; sym_isDynamic := true |}.

Definition sym_printf : Symbol :=
  {| sym_getID := 4; sym_getName := "printf"; sym_getAddress := 0;
     sym_getSymbolType := "Function"; sym_getSource := IMPORTED;
     sym_isExternal := true; sym_isDynamic := false |}.

Definition instr (a : Z) (mnemonic operands : string) (bytes : list Z) : Instruction :=
  {| ins_getAddress := a; ins_getMnemonicString := mnemonic;
     ins_getDefaultOperandRepresentation := operands;
     ins_getBytes := bytes; ins_getLength := Z.of_nat (List.length bytes) |}.

Definition code : list Instruction :=
  [instr 4096 "PUSH" "EBP" [85];
   instr 4097 "MOV" "EBP,ESP" [-119; -27];
   instr 4099 "MOV" "EAX,0x0" [-72; 0; 0; 0; 0];
   instr 4104 "POP" "EBP" [93];
   instr 4105 "RET" "" [-61]].

Definition sample : program :=
  {| name := "a.out"; image_base := 4096; language := "x86:LE:32:default";
     min_address := 4096; entry_points := [4096];
     symbols := [sym_main; sym_entry; sym_lab; sym_printf];
     functions := [(4096, 4105, main_fn)];
     instructions := code;
     comments := [(4099, "return value")];
     data := [(8192, "int")];
     broken := [] |}.

Definition with_broken (p : program) (methods : list string) : program :=
  {| name := name p; image_base := image_base p; language := language p;
     min_address := min_address p; entry_points := entry_points p;
     symbols := symbols p; functions := functions p;
     instructions := instructions p; comments := comments p;
     data := data p; broken := methods |}.

Definition without_entry (p : program) : program :=
  {| name := name p; image_base := image_base p; language := language p;
     min_address := min_address p; entry_points := [];
     symbols := symbols p; functions := functions p;
     instructions := instructions p; comments := comments p;
     data := data p; broken := broken p |}.

(** The sample program with a function whose signature holds the byte
    0xe9. *)
Definition latin_fn : Function :=
  {| fn_getName := "cafe"; fn_getEntryPoint := 4096;
     fn_getSignature := "void caf" ++ String "233"%char "(void)";
     fn_getBody := "[[00001000, 00001009]]" |}.

Definition latin : program :=
  {| name := name sample; image_base := image_base sample;
     language := language sample; min_address := min_address sample;
     entry_points := entry_points sample; symbols := symbols sample;
     functions := [(4096, 4105, latin_fn)];
     instructions := instructions sample; comments := comments sample;
     data := data sample; broken := [] |}.

(** A fresh run on program [p]. *)
Definition boot (p : program) : World :=
  {| currentProgram := Some p; calls := []; stdout := [] |}.

(** The same engine with a decompiler that raises on every function. *)
Definition crashing : Engine := {|
  Program := program;
  DataType := string;
  Data := string;
  getName := @getName _ engine;
  getMinAddress := @getMinAddress _ engine;
  getImageBase := @getImageBase _ engine;
  getLanguageID := @getLanguageID _ engine;
  getExternalEntryPointIterator := @getExternalEntryPointIterator _ engine;
  getAllSymbols := @getAllSymbols _ engine;
  getSymbols := @getSymbols _ engine;
  setName := @setName _ engine;
  getFunctions := @getFunctions _ engine;
  getFunctionContaining := @getFunctionContaining _ engine;
  getInstructionAt := @getInstructionAt _ engine;
  getComment := @getComment _ engine;
  getDataAt := @getDataAt _ engine;
  createData := @createData _ engine;
  getAddress := @getAddress _ engine;
  new_DataTypeParser := @new_DataTypeParser _ engine;
  parse := @parse _ engine;
  new_DecompInterface := @new_DecompInterface _ engine;
  openProgram := @openProgram _ engine;
  decompileFunction := fun _ _ =>
    Raise (fault "DecompileException" "decompiler process died");
  new_ConsoleTaskMonitor := @new_ConsoleTaskMonitor _ engine;
  format_exc := @format_exc _ engine;
  json_dumps := @json_dumps _ engine
|}.

(** A fresh run of the sample program on that engine. *)
Definition boot_crashing : @World space crashing :=
  @mkWorld space crashing (Some sample) [] [].

(** The same engine with a decompiler that completes with an empty C text. *)
Definition blank : Engine := {|
  Program := program;
  DataType := string;
  Data := string;
  getName := @getName _ engine;
  getMinAddress := @getMinAddress _ engine;
  getImageBase := @getImageBase _ engine;
  getLanguageID := @getLanguageID _ engine;
  getExternalEntryPointIterator := @getExternalEntryPointIterator _ engine;
  getAllSymbols := @getAllSymbols _ engine;
  getSymbols := @getSymbols _ engine;
  setName := @setName _ engine;
  getFunctions := @getFunctions _ engine;
  getFunctionContaining := @getFunctionContaining _ engine;
  getInstructionAt := @getInstructionAt _ engine;
  getComment := @getComment _ engine;
  getDataAt := @getDataAt _ engine;
  createData := @createData _ engine;
  getAddress := @getAddress _ engine;
  new_DataTypeParser := @new_DataTypeParser _ engine;
  parse := @parse _ engine;
  new_DecompInterface := @new_DecompInterface _ engine;
  openProgram := @openProgram _ engine;
  decompileFunction := fun _ _ =>
    Ok (Some {| res_decompileCompleted := true;
                res_getDecompiledFunction := Some {| dc_getC := "" |} |});
  new_ConsoleTaskMonitor := @new_ConsoleTaskMonitor _ engine;
  format_exc := @format_exc _ engine;
  json_dumps := @json_dumps _ engine
|}.

Definition boot_blank : @World space blank :=
  @mkWorld space blank (Some sample) [] [].

(** The same engine on which [DataTypeParser()] cannot be constructed. *)
Definition parserless : Engine := {|
  Program := program;
  DataType := string;
  Data := string;
  getName := @getName _ engine;
  getMinAddress := @getMinAddress _ engine;
  getImageBase := @getImageBase _ engine;
  getLanguageID := @getLanguageID _ engine;
  getExternalEntryPointIterator := @getExternalEntryPointIterator _ engine;
  getAllSymbols := @getAllSymbols _ engine;
  getSymbols := @getSymbols _ engine;
  setName := @setName _ engine;
  getFunctions := @getFunctions _ engine;
  getFunctionContaining := @getFunctionContaining _ engine;
  getInstructionAt := @getInstructionAt _ engine;
  getComment := @getComment _ engine;
  getDataAt := @getDataAt _ engine;
  createData := @createData _ engine;
  getAddress := @getAddress _ engine;
  new_DataTypeParser :=
    Raise (fault "TypeError" "DataTypeParser(): expected 2 args; got 0");
  parse := @parse _ engine;
  new_DecompInterface := @new_DecompInterface _ engine;
  openProgram := @openProgram _ engine;
  decompileFunction := @decompileFunction _ engine;
  new_ConsoleTaskMonitor := @new_ConsoleTaskMonitor _ engine;
  format_exc := @format_exc _ engine;
  json_dumps := @json_dumps _ engine
|}.

Definition boot_parserless : @World space parserless :=
  @mkWorld space parserless (Some sample) [] [].


(** The sample program with its entry point moved into the function. *)
Definition late_entry : program :=
  {| name := name sample; image_base := image_base sample;
     language := language sample; min_address := min_address sample;
     entry_points := [4099; 4096]; symbols := symbols sample;
     functions := functions sample;
     instructions := instructions sample; comments := comments sample;
     data := data sample; broken := [] |}.

(** A run with no program bound. *)
Definition unbound : World :=
  {| currentProgram := None; calls := []; stdout := [] |}.

End Mem.

(** ** Vocabulary of the statements *)

Section Vocabulary.

Context {AS : AddressSpace} {E : Engine}.

(** World [w] once the calls [cs] have been issued, in that order. *)
Definition after (w : World) (cs : list Call) : World :=
  fold_left (fun w' c => record_call c w') cs w.

(** World [w] with the program replaced by [p]. *)
Definition with_program (p : Program) (w : World) : World :=
  {| currentProgram := Some p; calls := calls w; stdout := stdout w |}.

(** The calls issued between world [w] and the later world [w']. *)
Definition issued (w w' : World) : list Call :=
  skipn (List.length (calls w)) (calls w').

Definition is_create (c : Call) : bool :=
  match c with
  | CCreateData _ _ => true
  | _ => false
  end.

Definition is_parse (c : Call) : bool :=
  match c with
  | CParse _ => true
  | _ => false
  end.

(** A computation that neither writes to the program nor prints. *)
Definition preserves {A} (m : M A) : Prop :=
  forall w,
    currentProgram (snd (m w)) = currentProgram w
    /\ stdout (snd (m w)) = stdout w.



(** The failure paths of [set_data_type] that the script's description
    names, for program [p]. *)
Inductive set_data_type_failure (p : Program) (address_str type_str : string)
    : Prop :=
| address_parse_fault (e : Exception) :
    getAddress address_str p = Raise e ->
    set_data_type_failure p address_str type_str
| type_parse_fault (a : Address) (e : Exception) :
    getAddress address_str p = Ok a ->
    new_DataTypeParser = Ok tt ->
    parse type_str = Raise e ->
    set_data_type_failure p address_str type_str
| no_data_present (a : Address) (t : DataType) :
    getAddress address_str p = Ok a ->
    new_DataTypeParser = Ok tt ->
    parse type_str = Ok t ->
    getDataAt a p = Ok None ->
    set_data_type_failure p address_str type_str.

(** How a call of [set_data_type] ends, case by case. *)
Inductive set_data_type_run (w : World) (address_str type_str : string)
    : outcome value * World -> Prop :=
| sdt_no_program :
    currentProgram w = None ->
    set_data_type_run w address_str type_str
      (Ok (mutation_result false (exc_str (AttributeError "getAddressFactory"))), w)
| sdt_bad_address p e :
    currentProgram w = Some p ->
    getAddress address_str p = Raise e ->
    set_data_type_run w address_str type_str
      (Ok (mutation_result false (exc_str e)),
       after w [CGetAddress address_str])
| sdt_no_parser p a e :
    currentProgram w = Some p ->
    getAddress address_str p = Ok a ->
    new_DataTypeParser = Raise e ->
    set_data_type_run w address_str type_str
      (Ok (mutation_result false (exc_str e)),
       after w [CGetAddress address_str; CNewDataTypeParser])
| sdt_bad_type p a e :
    currentProgram w = Some p ->
    getAddress address_str p = Ok a ->
    new_DataTypeParser = Ok tt ->
    parse type_str = Raise e ->
    set_data_type_run w address_str type_str
      (Ok (mutation_result false (exc_str e)),
       after w [CGetAddress address_str; CNewDataTypeParser; CParse type_str])
| sdt_lookup_fault p a t e :
    currentProgram w = Some p ->
    getAddress address_str p = Ok a ->
    new_DataTypeParser = Ok tt ->
    parse type_str = Ok t ->
    getDataAt a p = Raise e ->
    set_data_type_run w address_str type_str
      (Ok (mutation_result false (exc_str e)),
       after w [CGetAddress address_str; CNewDataTypeParser; CParse type_str;
                CGetDataAt a])
| sdt_no_data p a t :
    currentProgram w = Some p ->
    getAddress address_str p = Ok a ->
    new_DataTypeParser = Ok tt ->
    parse type_str = Ok t ->
    getDataAt a p = Ok None ->
    set_data_type_run w address_str type_str
      (Ok (mutation_result false "No data at address"),
       after w [CGetAddress address_str; CNewDataTypeParser; CParse type_str;
                CGetDataAt a])
| sdt_create_fault p a t d e p' :
    currentProgram w = Some p ->
    getAddress address_str p = Ok a ->
    new_DataTypeParser = Ok tt ->
    parse type_str = Ok t ->
    getDataAt a p = Ok (Some d) ->
    createData a t p = (Raise e, p') ->
    set_data_type_run w address_str type_str
      (Ok (mutation_result false (exc_str e)),
       with_program p'
         (after w [CGetAddress address_str; CNewDataTypeParser; CParse type_str;
                   CGetDataAt a; CCreateData a t]))
| sdt_created p a t d p' :
    currentProgram w = Some p ->
    getAddress address_str p = Ok a ->
    new_DataTypeParser = Ok tt ->
    parse type_str = Ok t ->
    getDataAt a p = Ok (Some d) ->
    createData a t p = (Ok tt, p') ->
    set_data_type_run w address_str type_str
      (Ok (mutation_result true ("Set type to " ++ type_str)),
       with_program p'
         (after w [CGetAddress address_str; CNewDataTypeParser; CParse type_str;
                   CGetDataAt a; CCreateData a t])).

(** The two shapes of the top-level result. *)
Definition analysis_keys : list string :=
  ["program_name"; "entry_point"; "entry_function"; "functions"; "symbols";
   "disassembly"; "image_base"; "language"].

Definition error_keys : list string :=
  ["error"; "message"; "traceback"; "program_name"].

Definition error_report (e : Exception) (program_name : string) : value :=
  VDict [("error", VBool true);
         ("message", VStr (exc_str e));
         ("traceback", VStr (format_exc e));
         ("program_name", VStr program_name)].

Definition is_analysis_report (v : value) : Prop :=
  keys v = analysis_keys /\ field "error" v = None.

Definition is_error_report (v : value) : Prop :=
  keys v = error_keys /\ field "error" v = Some (VBool true).

(** The program name is available to the [except] block: there is no
    program, or [getName] answers. *)
Definition name_available (w : World) : Prop :=
  match currentProgram w with
  | None => True
  | Some p => exists program_name, getName p = Ok program_name
  end.

(** Statements as the description words them, for the inputs on which the
    script is compared with them. *)

(** "On an address with no data, [set_data_type] fails with 'No data at
    address' and the type parser is not invoked." *)
Definition fails_without_parsing (w : World) (address_str type_str : string) : Prop :=
  fst (set_data_type address_str type_str w)
    = Ok (mutation_result false "No data at address")
  /\ existsb is_parse (issued w (snd (set_data_type address_str type_str w))) = false.

(** "Every non-external symbol of the symbol table has a record in the
    enumeration." *)
Definition reports_every_internal_symbol (w : World) (table : list Symbol) : Prop :=
  forall s, In s table -> sym_isExternal s = false ->
    exists out, fst (get_symbols w) = Ok out /\ In (symbol_record s) out.

(** "The run ends normally with one document between the two marker
    lines." *)
Definition emits_one_document (w : World) : Prop :=
  exists text w',
    main w = (Ok tt, w')
    /\ stdout w' = (stdout w ++ [JSON_START; text; JSON_END])%list.

(** The calls that write to the program. *)
Definition is_mutation (c : Call) : bool :=
  match c with
  | CSetName _ _ _ | CCreateData _ _ => true
  | _ => false
  end.

(** A computation whose engine calls, on every world, are appended to the
    record and all satisfy [P]. *)
Definition issues_only {A} (P : Call -> bool) (m : M A) : Prop :=
  forall w, exists l,
    calls (snd (m w)) = (calls w ++ l)%list /\ forallb P l = true.

(** A computation whose outcome depends on the world through the bound
    program only, not through the call record or the output. *)
Definition reads {A} (m : M A) : Prop :=
  forall w w', currentProgram w = currentProgram w' -> fst (m w) = fst (m w').


(** Sequencing of outcomes: the first fault wins. *)
Definition obind {A B} (o : outcome A) (k : A -> outcome B) : outcome B :=
  match o with
  | Ok a => k a
  | Raise e => Raise e
  end.

(** A call on the bound program, as a value: the [AttributeError] of the
    attribute when no program is bound, the engine's answer otherwise. *)
Definition ask {A} (attr : string) (f : Program -> outcome A) (w : World)
    : outcome A :=
  match currentProgram w with
  | None => Raise (AttributeError attr)
  | Some p => f p
  end.


(** The engine's [setName] on [s], taking program [p] to [p'], leaves the
    symbols with another identifier where and as they were. *)
Definition setName_keeps_others (s : Symbol) (p p' : Program) : Prop :=
  forall a l,
    getSymbols a p = Ok l ->
    exists l',
      getSymbols a p' = Ok l'
      /\ forall k t, nth_error l k = Some t ->
           sym_getID t <> sym_getID s -> nth_error l' k = Some t.



(** "Entry-point resolution never fails and always returns an address." *)
Definition entry_point_never_fails (w : World) : Prop :=
  exists a, fst (get_entry_point w) = Ok a.

(** "Decompilation never raises, and returns a record only for non-empty
    output." *)
Definition decompile_degrades_silently (function : option Function)
    (w : World) : Prop :=
  exists v,
    fst (decompile_function function w) = Ok v
    /\ (v = VNone
        \/ exists code, field "code" v = Some (VStr code) /\ code <> "").

End Vocabulary.

(** ** The byte column *)

Lemma land_255_mod (b : Z) : Z.land b 255 = b mod 256.
Proof. change 255 with (Z.ones 8). now rewrite Z.land_ones by lia. Qed.

Lemma format_02x_byte (n : Z) :
  0 <= n < 256 -> two_lower_hex (format_02x n) n = true.
Proof.
  intros Hn.
  assert (Hall : forallb (fun k => two_lower_hex (format_02x (Z.of_nat k)) (Z.of_nat k))
                   (seq 0 256) = true) by (vm_compute; reflexivity).
  rewrite forallb_forall in Hall.
  specialize (Hall (Z.to_nat n)).
  rewrite Z2Nat.id in Hall by lia.
  apply Hall, in_seq. lia.
Qed.

Lemma two_lower_hex_length (s : string) (n : Z) :
  two_lower_hex s n = true -> String.length s = 2%nat.
Proof.
  destruct s as [|hi [|lo [|c s]]]; simpl; try discriminate; reflexivity.
Qed.

Lemma instruction_record_bytes {AS : AddressSpace} (i : Instruction)
    (comment : option string) :
  field "bytes" (instruction_record i comment)
    = Some (VStr (render_bytes (ins_getBytes i))).
Proof. reflexivity. Qed.

Example render_bytes_signed :
  render_bytes [-1; 15; -128; 0; 127] = "ff 0f 80 00 7f".
Proof. reflexivity. Qed.

Example format_02x_unmasked : format_02x (-1) = "-1" /\ format_02x 4095 = "fff".
Proof. split; reflexivity. Qed.

(** The byte column of a byte list is the space-joined list of one piece
    per byte; the piece for byte [b] is exactly two lowercase hexadecimal
    digits denoting [b mod 256], the value of [b & 0xff]. *)
Lemma render_bytes_pieces (bs : list Z) :
  exists pieces : list string,
    render_bytes bs = String.concat " " pieces
    /\ Forall2 (fun b s =>
                  two_lower_hex s (b mod 256) = true
                  /\ String.length s = 2%nat
                  /\ Z.land b 255 = b mod 256
                  /\ 0 <= Z.land b 255 <= 255) bs pieces.
Proof.
  exists (map (fun b => format_02x (Z.land b 255)) bs).
  split; [reflexivity|].
  induction bs as [|b bs IH]; simpl; constructor; auto.
  pose proof (land_255_mod b) as Hm.
  pose proof (Z.mod_pos_bound b 256 ltac:(lia)) as Hb.
  assert (Hh : two_lower_hex (format_02x (Z.land b 255)) (b mod 256) = true)
    by (rewrite Hm; apply format_02x_byte; lia).
  repeat split; try lia; auto.
  eapply two_lower_hex_length; eauto.
Qed.

(** ** Entry point, decompilation, symbols *)

Section Queries.

Context {AS : AddressSpace} {E : Engine}.

(** C7, as the script has it.  [get_entry_point] has no handler.  On a
    bound program whose entry-point table the engine enumerates it returns
    the address of the first entry point when there is one, and otherwise
    asks for the program's minimum address and returns what the engine
    answers; an exception of either call is passed on, and with no program
    bound the first access raises [AttributeError]. *)
Theorem get_entry_point_resolves (w : World) :
  (currentProgram w = None ->
     get_entry_point w = (Raise (AttributeError "getSymbolTable"), w))
  /\ (forall p,
        currentProgram w = Some p ->
        (forall ep rest,
           getExternalEntryPointIterator p = Ok (ep :: rest) ->
           get_entry_point w
             = (Ok (ep_getAddress ep),
                record_call CGetExternalEntryPointIterator w))
        /\ (getExternalEntryPointIterator p = Ok [] ->
              get_entry_point w
                = (getMinAddress p,
                   record_call CGetMinAddress
                     (record_call CGetExternalEntryPointIterator w)))
        /\ (forall e,
              getExternalEntryPointIterator p = Raise e ->
              get_entry_point w
                = (Raise e, record_call CGetExternalEntryPointIterator w))).
Proof.
  split.
  - intros Hp. unfold get_entry_point, bind, query. now rewrite Hp.
  - intros p Hp. repeat split.
    + intros ep rest Heps.
      unfold get_entry_point, bind, query. rewrite Hp, Heps. reflexivity.
    + intros Heps.
      unfold get_entry_point, bind, query. rewrite Hp, Heps. simpl.
      rewrite Hp. reflexivity.
    + intros e Heps.
      unfold get_entry_point, bind, query. rewrite Hp, Heps. reflexivity.
Qed.

(** C8, as the script has it.  Without a function, [decompile_function]
    returns [None] at once and the world, hence the call record, is
    untouched.  With a function, when the decompiler call returns, the
    result is [None] if there are no results, the decompilation did not
    complete, or it produced no decompiled function; it is a record of name,
    entry point, code, signature and body exactly when the decompilation
    completed and produced a decompiled function, whatever its C text, the
    empty text included.  When the decompiler call raises,
    [decompile_function] raises the same exception. *)
Theorem decompile_function_absent_or_complete :
  (forall w, decompile_function None w = (Ok VNone, w))
  /\ (forall w f results,
        decompileFunction f 30 = Ok results ->
        exists v,
          decompile_function (Some f) w
            = (Ok v, record_call (CDecompileFunction f 30) w)
          /\ ((v = VNone
               /\ (results = None
                   \/ exists r, results = Some r
                                /\ (res_decompileCompleted r = false
                                    \/ res_getDecompiledFunction r = None)))
              \/ (exists r d,
                    results = Some r
                    /\ res_decompileCompleted r = true
                    /\ res_getDecompiledFunction r = Some d
                    /\ v = VDict [("name", VStr (fn_getName f));
                                  ("entry_point", VStr (addr_str (fn_getEntryPoint f)));
                                  ("code", VStr (dc_getC d));
                                  ("signature", VStr (fn_getSignature f));
                                  ("body", VStr (fn_getBody f))])))
  /\ (forall w f e,
        decompileFunction f 30 = Raise e ->
        decompile_function (Some f) w
          = (Raise e, record_call (CDecompileFunction f 30) w)).
Proof.
  split; [reflexivity|]. split.
  - intros w f results Hres.
    unfold decompile_function, bind, invoke. rewrite Hres.
    destruct results as [r|].
    + destruct (res_decompileCompleted r) eqn:Hc.
      * destruct (res_getDecompiledFunction r) as [d|] eqn:Hd.
        -- eexists; split; [reflexivity|]. right. exists r, d. auto.
        -- eexists; split; [reflexivity|]. left. split; eauto.
      * eexists; split; [reflexivity|]. left. split; eauto.
    + eexists; split; [reflexivity|]. left. auto.
  - intros w f e Hres.
    unfold decompile_function, bind, invoke. now rewrite Hres.
Qed.

(** C5, as the script has it.  [get_symbols] asks the symbol table for its
    symbols with dynamic symbols left out ([getAllSymbols(False)]) and
    reports, in the engine's order, a record for each symbol of that
    enumeration that is not external: within the enumeration, being external
    is the only ground for exclusion. *)
Theorem get_symbols_internal_of_enumeration (w : World) (p : Program)
    (enumerated : list Symbol) :
  currentProgram w = Some p ->
  getAllSymbols false p = Ok enumerated ->
  exists out,
    get_symbols w = (Ok out, record_call (CGetAllSymbols false) w)
    /\ out = map symbol_record
               (filter (fun s => negb (sym_isExternal s)) enumerated)
    /\ (forall s, In s enumerated -> sym_isExternal s = false ->
          In (symbol_record s) out)
    /\ (forall r, In r out ->
          exists s, In s enumerated /\ sym_isExternal s = false
                    /\ r = symbol_record s).
Proof.
  intros Hp Hall.
  eexists. split.
  - unfold get_symbols, bind, query. rewrite Hp, Hall. reflexivity.
  - split; [reflexivity|]. split.
    + intros s Hin Hext. apply in_map, filter_In. split; auto.
      now rewrite Hext.
    + intros r Hin. apply in_map_iff in Hin as (s & <- & Hs).
      apply filter_In in Hs as [Hs Hext].
      exists s. repeat split; auto.
      now destruct (sym_isExternal s).
Qed.

End Queries.

Lemma get_entry_point_resolves_witness :
  fst (get_entry_point (Mem.boot Mem.late_entry)) = Ok 4099
  /\ fst (get_entry_point (Mem.boot (Mem.without_entry Mem.late_entry)))
       = Ok 4096
  /\ fst (get_entry_point Mem.unbound)
       = Raise (AttributeError "getSymbolTable").
Proof.
  destruct (get_entry_point_resolves (Mem.boot Mem.late_entry)) as [_ Hbound].
  destruct (Hbound Mem.late_entry eq_refl) as (Hfirst & _ & _).
  destruct (get_entry_point_resolves
              (Mem.boot (Mem.without_entry Mem.late_entry))) as [_ Hbound'].
  destruct (Hbound' (Mem.without_entry Mem.late_entry) eq_refl)
    as (_ & Hmin & _).
  destruct (get_entry_point_resolves Mem.unbound) as [Hnone _].
  split; [|split].
  - rewrite (Hfirst _ _ eq_refl). reflexivity.
  - rewrite (Hmin eq_refl). reflexivity.
  - rewrite (Hnone eq_refl). reflexivity.
Defined.

(** C7, against the wording: resolution fails when the entry-point table is
    empty and [getMinAddress] raises, when the enumeration itself raises,
    and when no program is bound. *)
Lemma get_entry_point_fails_counterexample :
  ~ entry_point_never_fails
      (Mem.boot (Mem.with_broken (Mem.without_entry Mem.sample)
                   ["getMinAddress"]))
  /\ ~ entry_point_never_fails
         (Mem.boot (Mem.with_broken Mem.sample
                      ["getExternalEntryPointIterator"]))
  /\ ~ entry_point_never_fails Mem.unbound.
Proof.
  repeat split; intros [a Ha]; vm_compute in Ha; discriminate Ha.
Qed.

Lemma decompile_function_absent_or_complete_witness :
  (exists v,
     fst (decompile_function (Some Mem.main_fn) (Mem.boot Mem.sample)) = Ok v
     /\ field "code" v = Some (VStr "int main(void) { }"))
  /\ fst (@decompile_function Mem.space Mem.crashing (Some Mem.main_fn)
            Mem.boot_crashing)
       = Raise (Mem.fault "DecompileException" "decompiler process died").
Proof.
  split.
  - destruct decompile_function_absent_or_complete as (_ & H & _).
    destruct (H (Mem.boot Mem.sample) Mem.main_fn _ eq_refl) as (v & Hv & Hcase).
    exists v. split; [now rewrite Hv|].
    destruct Hcase as [[_ [Hn | (r & Hr & Hinc)]] | (r & d & Hr & _ & Hd & ->)].
    + discriminate Hn.
    + injection Hr as <-. destruct Hinc as [Hinc | Hinc]; discriminate Hinc.
    + injection Hr as <-. injection Hd as <-. reflexivity.
  - destruct (@decompile_function_absent_or_complete Mem.space Mem.crashing)
      as (_ & _ & H).
    now rewrite (H Mem.boot_crashing Mem.main_fn _ eq_refl).
Defined.

(** C8, against the wording: a decompiler that raises makes
    [decompile_function] raise, and a decompilation that completes with an
    empty C text yields a record whose code is the empty string. *)
Lemma decompile_function_not_silent_counterexample :
  ~ @decompile_degrades_silently Mem.space Mem.crashing (Some Mem.main_fn)
      Mem.boot_crashing
  /\ @field "code"
       (match fst (@decompile_function Mem.space Mem.blank (Some Mem.main_fn)
                     Mem.boot_blank) with
        | Ok v => v
        | Raise _ => VNone
        end) = Some (VStr "")
  /\ ~ @decompile_degrades_silently Mem.space Mem.blank (Some Mem.main_fn)
         Mem.boot_blank.
Proof.
  split; [|split].
  - intros (v & Hv & _). vm_compute in Hv. discriminate Hv.
  - reflexivity.
  - intros (v & Hv & Hcase). vm_compute in Hv. injection Hv as <-.
    destruct Hcase as [Hn | (code & Hc & Hne)]; [discriminate Hn|].
    vm_compute in Hc. injection Hc as <-. now apply Hne.
Qed.

Lemma get_symbols_internal_of_enumeration_witness :
  fst (get_symbols (Mem.boot Mem.sample))
    = Ok [symbol_record Mem.sym_main; symbol_record Mem.sym_entry].
Proof.
  destruct (get_symbols_internal_of_enumeration (Mem.boot Mem.sample)
              eq_refl eq_refl) as (out & Hrun & -> & _).
  rewrite Hrun. reflexivity.
Defined.

(** C5, against the wording: the dynamic label of the sample program is a
    symbol of its table ([getAllSymbols(True)] lists it) and is not
    external, yet [get_symbols] has no record for it. *)
Lemma get_symbols_omits_dynamic_counterexample :
  getAllSymbols true Mem.sample
    = Ok [Mem.sym_main; Mem.sym_entry; Mem.sym_lab; Mem.sym_printf]
  /\ sym_isExternal Mem.sym_lab = false
  /\ ~ reports_every_internal_symbol (Mem.boot Mem.sample)
         [Mem.sym_main; Mem.sym_entry; Mem.sym_lab; Mem.sym_printf].
Proof.
  split; [reflexivity|]. split; [reflexivity|].
  intros H.
  destruct (H Mem.sym_lab) as (out & Hout & Hin).
  - simpl. auto.
  - reflexivity.
  - injection Hout as <-. simpl in Hin.
    destruct Hin as [Heq | [Heq | []]]; discriminate Heq.
Qed.

(** ** The call record *)

Section CallRecord.

Context {AS : AddressSpace} {E : Engine}.

Lemma calls_after (w : World) (cs : list Call) :
  calls (after w cs) = (calls w ++ cs)%list.
Proof.
  revert w. induction cs as [|c cs IH]; intros w.
  - simpl. now rewrite app_nil_r.
  - change (after w (c :: cs)) with (after (record_call c w) cs).
    rewrite IH. simpl. now rewrite <- app_assoc.
Qed.

Lemma currentProgram_after (w : World) (cs : list Call) :
  currentProgram (after w cs) = currentProgram w.
Proof.
  revert w. induction cs as [|c cs IH]; intros w; [reflexivity|].
  change (after w (c :: cs)) with (after (record_call c w) cs).
  now rewrite IH.
Qed.

Lemma stdout_after (w : World) (cs : list Call) :
  stdout (after w cs) = stdout w.
Proof.
  revert w. induction cs as [|c cs IH]; intros w; [reflexivity|].
  change (after w (c :: cs)) with (after (record_call c w) cs).
  now rewrite IH.
Qed.

Lemma issued_calls (w w' : World) (cs : list Call) :
  calls w' = (calls w ++ cs)%list -> issued w w' = cs.
Proof.
  intros H. unfold issued. rewrite H.
  generalize (calls w) as l. induction l; simpl; auto.
Qed.

Lemma issued_after (w : World) (cs : list Call) : issued w (after w cs) = cs.
Proof. apply issued_calls, calls_after. Qed.

Lemma issued_with_program (w : World) (p : Program) (cs : list Call) :
  issued w (with_program p (after w cs)) = cs.
Proof. apply issued_calls. simpl. apply calls_after. Qed.

End CallRecord.

(** ** The mutation operations *)

Section Mutations.

Context {AS : AddressSpace} {E : Engine}.

Lemma set_data_type_cases (w : World) (address_str type_str : string) :
  set_data_type_run w address_str type_str (set_data_type address_str type_str w).
Proof.
  unfold set_data_type, try_except, bind, query, invoke, mutate.
  destruct (currentProgram w) as [p|] eqn:Hp; [|now constructor].
  destruct (getAddress address_str p) as [a|e] eqn:Ha;
    [|eapply sdt_bad_address; eauto].
  simpl. destruct new_DataTypeParser as [[]|e] eqn:Hn;
    [|eapply sdt_no_parser; eauto].
  simpl. destruct (parse type_str) as [t|e] eqn:Ht;
    [|eapply sdt_bad_type; eauto].
  simpl. rewrite Hp.
  destruct (getDataAt a p) as [[d|]|e] eqn:Hd; simpl.
  - rewrite Hp. destruct (createData a t p) as [[[]|e] p'] eqn:Hc.
    + eapply sdt_created; eauto.
    + eapply sdt_create_fault; eauto.
  - eapply sdt_no_data; eauto.
  - eapply sdt_lookup_fault; eauto.
Qed.

Ltac run_cases H :=
  match type of H with
  | set_data_type_run _ _ _ ?r =>
      let x := fresh "x" in
      let Hx := fresh "Hx" in
      remember r as x eqn:Hx in *; clear Hx; destruct H
  end.

Ltac known_world :=
  cbn [fst snd];
  rewrite ?issued_after, ?issued_with_program, ?currentProgram_after.

(** C1, as the script has it.  When the address text resolves to an address
    with no data, [set_data_type] reports failure and leaves the program as
    it was, but only after it has tried to construct the parser and, when
    that succeeds, has handed the type text to it, in this order and before
    the data lookup: the message is 'No data at address' if the parser is
    constructed and the text parses, the parser's fault text if the text
    does not parse, and the constructor's fault text (no parse being
    attempted) if the parser cannot be constructed. *)
Theorem set_data_type_no_data_after_parse (w : World) (p : Program)
    (address_str type_str : string) (a : Address) :
  currentProgram w = Some p ->
  getAddress address_str p = Ok a ->
  getDataAt a p = Ok None ->
  (new_DataTypeParser = Ok tt ->
   forall t, parse type_str = Ok t ->
     set_data_type address_str type_str w
       = (Ok (VDict [("success", VBool false);
                     ("message", VStr "No data at address")]),
          after w [CGetAddress address_str; CNewDataTypeParser;
                   CParse type_str; CGetDataAt a]))
  /\ (new_DataTypeParser = Ok tt ->
      forall e, parse type_str = Raise e ->
        set_data_type address_str type_str w
          = (Ok (VDict [("success", VBool false);
                        ("message", VStr (exc_str e))]),
             after w [CGetAddress address_str; CNewDataTypeParser;
                      CParse type_str]))
  /\ (forall e, new_DataTypeParser = Raise e ->
        set_data_type address_str type_str w
          = (Ok (VDict [("success", VBool false);
                        ("message", VStr (exc_str e))]),
             after w [CGetAddress address_str; CNewDataTypeParser]))
  /\ (exists message w',
        set_data_type address_str type_str w
          = (Ok (VDict [("success", VBool false);
                        ("message", VStr message)]), w')
        /\ currentProgram w' = Some p
        /\ (new_DataTypeParser = Ok tt ->
              In (CParse type_str) (issued w w'))).
Proof.
  intros Hp Ha Hd.
  assert (Hok : new_DataTypeParser = Ok tt ->
     forall t, parse type_str = Ok t ->
     set_data_type address_str type_str w
       = (Ok (VDict [("success", VBool false);
                     ("message", VStr "No data at address")]),
          after w [CGetAddress address_str; CNewDataTypeParser;
                   CParse type_str; CGetDataAt a])).
  { intros Hn t Ht.
    unfold set_data_type, try_except, bind, query, invoke.
    rewrite Hp, Ha. simpl. rewrite Hn. simpl. rewrite Ht. simpl.
    rewrite Hp, Hd. reflexivity. }
  assert (Hbad : new_DataTypeParser = Ok tt ->
     forall e, parse type_str = Raise e ->
     set_data_type address_str type_str w
       = (Ok (VDict [("success", VBool false);
                     ("message", VStr (exc_str e))]),
          after w [CGetAddress address_str; CNewDataTypeParser;
                   CParse type_str])).
  { intros Hn e Ht.
    unfold set_data_type, try_except, bind, query, invoke.
    rewrite Hp, Ha. simpl. rewrite Hn. simpl. rewrite Ht. reflexivity. }
  assert (Hnew : forall e, new_DataTypeParser = Raise e ->
     set_data_type address_str type_str w
       = (Ok (VDict [("success", VBool false);
                     ("message", VStr (exc_str e))]),
          after w [CGetAddress address_str; CNewDataTypeParser])).
  { intros e Hn.
    unfold set_data_type, try_except, bind, query, invoke.
    rewrite Hp, Ha. simpl. rewrite Hn. reflexivity. }
  split; [exact Hok|]. split; [exact Hbad|]. split; [exact Hnew|].
  destruct new_DataTypeParser as [[]|e0] eqn:Hn.
  - destruct (parse type_str) as [t|e] eqn:Ht.
    + do 2 eexists. split; [apply (Hok eq_refl t eq_refl)|].
      rewrite issued_after, currentProgram_after. simpl. auto.
    + do 2 eexists. split; [apply (Hbad eq_refl e eq_refl)|].
      rewrite issued_after, currentProgram_after. simpl. auto.
  - do 2 eexists. split; [apply (Hnew e0 eq_refl)|].
    rewrite currentProgram_after. split; [exact Hp | discriminate].
Qed.

(** C10.  [createData] is issued only where the address resolved, the type
    parsed and data was found at the address; a call that does not issue it
    leaves the program as it was; and on each named failure path (address
    parse fault, type parse fault, no data at the address) the call is not
    issued, the program is unchanged and the result is a failure. *)
Theorem set_data_type_frame (w : World) (address_str type_str : string) :
  let w' := snd (set_data_type address_str type_str w) in
  (forall a t, In (CCreateData a t) (issued w w') ->
     exists p d,
       currentProgram w = Some p
       /\ getAddress address_str p = Ok a
       /\ parse type_str = Ok t
       /\ getDataAt a p = Ok (Some d))
  /\ (existsb is_create (issued w w') = false ->
        currentProgram w' = currentProgram w)
  /\ (forall p,
        currentProgram w = Some p ->
        set_data_type_failure p address_str type_str ->
        existsb is_create (issued w w') = false
        /\ currentProgram w' = Some p
        /\ exists msg,
             fst (set_data_type address_str type_str w)
               = Ok (mutation_result false msg)).
Proof.
  pose proof (set_data_type_cases w address_str type_str) as Hrun.
  cbv zeta. split; [|split].
  - intros a0 t0. run_cases Hrun; known_world; simpl; intros Hin;
      repeat (destruct Hin as [Hin | Hin]; try discriminate Hin);
      try contradiction.
    + unfold issued in Hin. rewrite skipn_all in Hin. contradiction.
    + injection Hin as <- <-. eauto 8.
    + injection Hin as <- <-. eauto 8.
  - run_cases Hrun; known_world; simpl; auto; discriminate.
  - intros p0 Hp0 Hfail.
    run_cases Hrun; known_world; simpl;
      destruct Hfail; try congruence;
      (split; [reflexivity | split; [congruence | eauto]]).
Qed.

(** [rename_symbol] returns a result on every world. *)
Lemma rename_symbol_returns (w : World) (address_str new_name : string) :
  exists success message,
    fst (rename_symbol address_str new_name w)
      = Ok (mutation_result success message).
Proof.
  unfold rename_symbol, try_except, bind, query, mutate.
  destruct (currentProgram w) as [p|] eqn:Hp; [|simpl; eauto].
  destruct (getAddress address_str p) as [a|e]; [|simpl; eauto].
  simpl. rewrite Hp.
  destruct (getSymbols a p) as [[|symbol rest]|e]; simpl; eauto.
  rewrite Hp.
  destruct (setName symbol new_name USER_DEFINED p) as [[[]|e] p'];
    simpl; eauto.
Qed.

(** [set_data_type] returns a result on every world. *)
Lemma set_data_type_returns (w : World) (address_str type_str : string) :
  exists success message,
    fst (set_data_type address_str type_str w)
      = Ok (mutation_result success message).
Proof.
  pose proof (set_data_type_cases w address_str type_str) as Hrun.
  run_cases Hrun; simpl; eauto.
Qed.

(** C4.  On a program [p]: with no symbol at the resolved address,
    [rename_symbol] returns success false with 'No symbol found at address',
    issues no rename and leaves the program as it was.  With at least one
    symbol, the one mutation it issues is [setName] on the first symbol,
    with the new name and [USER_DEFINED]; when that call returns, the result
    is success true and the program is the one [setName] left, in which, on
    an engine whose [setName] writes the named symbol only, the other
    symbols at the address are as before.  A fault of the address parser, of
    the symbol lookup or of [setName] becomes success false with the fault
    text, and no call of [rename_symbol] raises. *)
Theorem rename_symbol_first_or_none (w : World) (p : Program)
    (address_str new_name : string) :
  currentProgram w = Some p ->
  (forall a,
     getAddress address_str p = Ok a ->
     getSymbols a p = Ok [] ->
     rename_symbol address_str new_name w
       = (Ok (VDict [("success", VBool false);
                     ("message", VStr "No symbol found at address")]),
          after w [CGetAddress address_str; CGetSymbols a]))
  /\ (forall a symbol rest p',
        getAddress address_str p = Ok a ->
        getSymbols a p = Ok (symbol :: rest) ->
        setName symbol new_name USER_DEFINED p = (Ok tt, p') ->
        rename_symbol address_str new_name w
          = (Ok (VDict [("success", VBool true);
                        ("message", VStr ("Renamed to " ++ new_name))]),
             with_program p'
               (after w [CGetAddress address_str; CGetSymbols a;
                         CSetName symbol new_name USER_DEFINED]))
        /\ (setName_keeps_others symbol p p' ->
              exists l',
                getSymbols a p' = Ok l'
                /\ forall k t, nth_error rest k = Some t ->
                     sym_getID t <> sym_getID symbol ->
                     nth_error l' (S k) = Some t))
  /\ (forall e,
        getAddress address_str p = Raise e ->
        rename_symbol address_str new_name w
          = (Ok (VDict [("success", VBool false);
                        ("message", VStr (exc_str e))]),
             after w [CGetAddress address_str]))
  /\ (forall a e,
        getAddress address_str p = Ok a ->
        getSymbols a p = Raise e ->
        rename_symbol address_str new_name w
          = (Ok (VDict [("success", VBool false);
                        ("message", VStr (exc_str e))]),
             after w [CGetAddress address_str; CGetSymbols a]))
  /\ (forall a symbol rest e p',
        getAddress address_str p = Ok a ->
        getSymbols a p = Ok (symbol :: rest) ->
        setName symbol new_name USER_DEFINED p = (Raise e, p') ->
        rename_symbol address_str new_name w
          = (Ok (VDict [("success", VBool false);
                        ("message", VStr (exc_str e))]),
             with_program p'
               (after w [CGetAddress address_str; CGetSymbols a;
                         CSetName symbol new_name USER_DEFINED])))
  /\ (forall w0, exists success message,
        fst (rename_symbol address_str new_name w0)
          = Ok (VDict [("success", VBool success);
                       ("message", VStr message)])).
Proof.
  intros Hp. split; [|split; [|split; [|split; [|split]]]].
  - intros a Ha Hs.
    unfold rename_symbol, try_except, bind, query.
    rewrite Hp, Ha. simpl. rewrite Hp, Hs. reflexivity.
  - intros a symbol rest p' Ha Hs Hset. split.
    + unfold rename_symbol, try_except, bind, query, mutate.
      rewrite Hp, Ha. simpl. rewrite Hp, Hs. simpl. rewrite Hp, Hset.
      reflexivity.
    + intros Hkeep. destruct (Hkeep a _ Hs) as (l' & Hl' & Hnth).
      exists l'. split; [exact Hl'|].
      intros k t Hk Hid. apply Hnth; [exact Hk | exact Hid].
  - intros e Ha.
    unfold rename_symbol, try_except, bind, query.
    rewrite Hp, Ha. reflexivity.
  - intros a e Ha Hs.
    unfold rename_symbol, try_except, bind, query.
    rewrite Hp, Ha. simpl. rewrite Hp, Hs. reflexivity.
  - intros a symbol rest e p' Ha Hs Hset.
    unfold rename_symbol, try_except, bind, query, mutate.
    rewrite Hp, Ha. simpl. rewrite Hp, Hs. simpl. rewrite Hp, Hset.
    reflexivity.
  - intros w0. apply rename_symbol_returns.
Qed.

End Mutations.

(** In the in-memory engine a rename that returns changes the name and the
    source of the symbol it is called on and of no symbol with another
    identifier. *)
Lemma Mem_setName_only (p p' : Mem.program) (s : Symbol) (new_name : string)
    (source : SourceType) :
  setName s new_name source p = (Ok tt, p') ->
  Mem.symbols p' = map (Mem.rename s new_name source) (Mem.symbols p)
  /\ forall t, In t (Mem.symbols p) -> sym_getID t <> sym_getID s ->
       In t (Mem.symbols p').
Proof.
  change (@setName _ Mem.engine s new_name source p)
    with (Mem.set_name s new_name source p).
  unfold Mem.set_name.
  destruct (String.eqb new_name ""); [discriminate|].
  destruct (existsb (String.eqb "setName") (Mem.broken p)); [discriminate|].
  intros H. injection H as <-. split; [reflexivity|].
  intros t Hin Hid. simpl. apply in_map_iff. exists t. split; auto.
  unfold Mem.rename. destruct (Z.eqb_spec (sym_getID t) (sym_getID s)); tauto.
Qed.

Lemma Mem_filter_rename (s : Symbol) (new_name : string)
    (source : SourceType) (a : Z) (l : list Symbol) :
  filter (fun t => sym_getAddress t =? a) (map (Mem.rename s new_name source) l)
    = map (Mem.rename s new_name source)
        (filter (fun t => sym_getAddress t =? a) l).
Proof.
  induction l as [|t l IH]; [reflexivity|]. simpl.
  assert (Ha : sym_getAddress (Mem.rename s new_name source t)
               = sym_getAddress t)
    by (unfold Mem.rename; destruct (sym_getID t =? sym_getID s); reflexivity).
  rewrite Ha. destruct (sym_getAddress t =? a); simpl; now rewrite IH.
Qed.

(** The in-memory engine's [setName] writes the named symbol only. *)
Lemma Mem_setName_keeps_others (p p' : Mem.program) (s : Symbol)
    (new_name : string) (source : SourceType) :
  setName s new_name source p = (Ok tt, p') ->
  setName_keeps_others s p p'.
Proof.
  change (@setName _ Mem.engine s new_name source p)
    with (Mem.set_name s new_name source p).
  unfold Mem.set_name.
  destruct (String.eqb new_name ""); [discriminate|].
  destruct (existsb (String.eqb "setName") (Mem.broken p)); [discriminate|].
  intros H. injection H as <-.
  intros a l.
  change (@getSymbols _ Mem.engine a p)
    with (Mem.guard "getSymbols" p
            (Ok (filter (fun t => sym_getAddress t =? a) (Mem.symbols p)))).
  change (@getSymbols _ Mem.engine a
            (Mem.with_symbols p
               (map (Mem.rename s new_name source) (Mem.symbols p))))
    with (Mem.guard "getSymbols" p
            (Ok (filter (fun t => sym_getAddress t =? a)
                   (map (Mem.rename s new_name source) (Mem.symbols p))))).
  unfold Mem.guard.
  destruct (existsb (String.eqb "getSymbols") (Mem.broken p)); [discriminate|].
  intros Hl. injection Hl as <-.
  eexists. split; [reflexivity|].
  intros k t Hk Hid. rewrite Mem_filter_rename, nth_error_map, Hk. simpl.
  unfold Mem.rename. destruct (Z.eqb_spec (sym_getID t) (sym_getID s)); tauto.
Qed.

Lemma rename_symbol_first_or_none_witness :
  (rename_symbol "1000" "start" (Mem.boot Mem.sample)
     = (Ok (VDict [("success", VBool true);
                   ("message", VStr "Renamed to start")]),
        with_program
          (Mem.with_symbols Mem.sample
             [Mem.rename Mem.sym_main "start" USER_DEFINED Mem.sym_main;
              Mem.sym_entry; Mem.sym_lab; Mem.sym_printf])
          (after (Mem.boot Mem.sample)
             [CGetAddress "1000"; CGetSymbols 4096;
              CSetName Mem.sym_main "start" USER_DEFINED]))
   /\ exists l',
        getSymbols 4096
          (Mem.with_symbols Mem.sample
             [Mem.rename Mem.sym_main "start" USER_DEFINED Mem.sym_main;
              Mem.sym_entry; Mem.sym_lab; Mem.sym_printf]) = Ok l'
        /\ nth_error l' 1 = Some Mem.sym_entry)
  /\ rename_symbol "2000" "start" (Mem.boot Mem.sample)
       = (Ok (VDict [("success", VBool false);
                     ("message", VStr "No symbol found at address")]),
          after (Mem.boot Mem.sample) [CGetAddress "2000"; CGetSymbols 8192]).
Proof.
  destruct (rename_symbol_first_or_none (Mem.boot Mem.sample) "1000" "start"
              eq_refl) as (_ & Hfirst & _).
  destruct (rename_symbol_first_or_none (Mem.boot Mem.sample) "2000" "start"
              eq_refl) as (Hnone & _).
  split.
  - destruct (Hfirst 4096 Mem.sym_main [Mem.sym_entry]
                (Mem.with_symbols Mem.sample
                   [Mem.rename Mem.sym_main "start" USER_DEFINED Mem.sym_main;
                    Mem.sym_entry; Mem.sym_lab; Mem.sym_printf])
                eq_refl eq_refl eq_refl) as [Hrun Hothers].
    split; [exact Hrun|].
    destruct Hothers as (l' & Hl' & Hnth).
    + apply Mem_setName_keeps_others with (new_name := "start")
        (source := USER_DEFINED). reflexivity.
    + exists l'. split; [exact Hl'|].
      apply (Hnth O Mem.sym_entry eq_refl). discriminate.
  - apply (Hnone 8192); reflexivity.
Defined.

Lemma set_data_type_no_data_after_parse_witness :
  set_data_type "3000" "int" (Mem.boot Mem.sample)
    = (Ok (VDict [("success", VBool false);
                  ("message", VStr "No data at address")]),
       after (Mem.boot Mem.sample)
         [CGetAddress "3000"; CNewDataTypeParser; CParse "int";
          CGetDataAt 12288])
  /\ fst (set_data_type "3000" "struct foo" (Mem.boot Mem.sample))
       = Ok (VDict [("success", VBool false);
                    ("message", VStr "unknown type: struct foo")])
  /\ @set_data_type Mem.space Mem.parserless "3000" "int" Mem.boot_parserless
       = (Ok (VDict [("success", VBool false);
                     ("message",
                      VStr "DataTypeParser(): expected 2 args; got 0")]),
          @after Mem.space Mem.parserless Mem.boot_parserless
            [@CGetAddress Mem.space Mem.parserless "3000";
             @CNewDataTypeParser Mem.space Mem.parserless]).
Proof.
  split; [|split].
  - destruct (set_data_type_no_data_after_parse (Mem.boot Mem.sample) "3000" "int"
                eq_refl eq_refl eq_refl) as (Hok & _).
    exact (Hok eq_refl _ eq_refl).
  - destruct (set_data_type_no_data_after_parse (Mem.boot Mem.sample) "3000"
                "struct foo" eq_refl eq_refl eq_refl) as (_ & Hbad & _).
    rewrite (Hbad eq_refl _ eq_refl). reflexivity.
  - destruct (@set_data_type_no_data_after_parse Mem.space Mem.parserless
                Mem.boot_parserless Mem.sample "3000" "int" 12288
                eq_refl eq_refl eq_refl) as (_ & _ & Hnew & _).
    exact (Hnew _ eq_refl).
Defined.

(** C1, against the wording: 0x3000 resolves and holds no data, yet the
    parser is invoked for a type text that parses, and for one that does not
    the message is the parser's, not 'No data at address'. *)
Lemma set_data_type_parses_first_counterexample :
  getAddress "3000" Mem.sample = Ok 12288
  /\ getDataAt 12288 Mem.sample = Ok None
  /\ ~ fails_without_parsing (Mem.boot Mem.sample) "3000" "int"
  /\ ~ fails_without_parsing (Mem.boot Mem.sample) "3000" "struct foo".
Proof.
  split; [reflexivity|]. split; [reflexivity|].
  split; intros [_ H]; vm_compute in H; discriminate H.
Qed.

Lemma set_data_type_frame_witness :
  existsb is_create
    (issued (Mem.boot Mem.sample)
       (snd (set_data_type "zz" "int" (Mem.boot Mem.sample)))) = false
  /\ currentProgram (snd (set_data_type "zz" "int" (Mem.boot Mem.sample)))
       = Some Mem.sample
  /\ currentProgram (snd (set_data_type "3000" "int" (Mem.boot Mem.sample)))
       = Some Mem.sample
  /\ currentProgram (snd (set_data_type "2000" "int*" (Mem.boot Mem.sample)))
       = Some Mem.sample.
Proof.
  destruct (set_data_type_frame (Mem.boot Mem.sample) "zz" "int")
    as (_ & _ & Hzz).
  destruct (Hzz Mem.sample eq_refl
              ltac:(eapply address_parse_fault; reflexivity)) as (Hnone & Hsame & _).
  destruct (set_data_type_frame (Mem.boot Mem.sample) "3000" "int")
    as (_ & _ & Hnd).
  destruct (Hnd Mem.sample eq_refl
              ltac:(eapply no_data_present; reflexivity)) as (_ & Hsame' & _).
  destruct (set_data_type_frame (Mem.boot Mem.sample) "2000" "int*")
    as (_ & _ & Hty).
  destruct (Hty Mem.sample eq_refl
              ltac:(eapply type_parse_fault; reflexivity)) as (_ & Hsame'' & _).
  auto.
Defined.

(** ** The report and the error envelope *)

Section Report.

Context {AS : AddressSpace} {E : Engine}.

Lemma bind_ok {A B} (m : M A) (k : A -> M B) (w w1 : World) (b : B) :
  bind m k w = (Ok b, w1) ->
  exists a w', m w = (Ok a, w') /\ k a w' = (Ok b, w1).
Proof.
  unfold bind. destruct (m w) as [[a|e] w']; [eauto | discriminate].
Qed.

Lemma preserves_ret {A} (a : A) : preserves (ret a).
Proof. intros w. split; reflexivity. Qed.

Lemma preserves_bind {A B} (m : M A) (k : A -> M B) :
  preserves m -> (forall a, preserves (k a)) -> preserves (bind m k).
Proof.
  intros Hm Hk w. unfold bind.
  destruct (Hm w) as [Hp Hs].
  destruct (m w) as [[a|e] w']; simpl in *.
  - destruct (Hk a w') as [Hp' Hs']. split; congruence.
  - auto.
Qed.

Lemma preserves_query {A} attr c (f : Program -> outcome A) :
  preserves (query attr c f).
Proof.
  intros w. unfold query.
  destruct (currentProgram w) eqn:H; simpl; rewrite ?H; auto.
Qed.

Lemma preserves_invoke {A} c (r : outcome A) : preserves (invoke c r).
Proof. intros w. split; reflexivity. Qed.

Lemma preserves_accessor attr : preserves (accessor attr).
Proof.
  intros w. unfold accessor.
  destruct (currentProgram w) eqn:H; simpl; rewrite ?H; auto.
Qed.

Create HintDb preserves.
Hint Resolve preserves_ret preserves_query preserves_invoke
  preserves_accessor : preserves.

Lemma get_entry_point_preserves : preserves get_entry_point.
Proof.
  apply preserves_bind; auto with preserves.
  intros [|ep eps]; auto with preserves.
Qed.

Lemma decompile_function_preserves function :
  preserves (decompile_function function).
Proof.
  destruct function as [f|]; simpl; auto with preserves.
  apply preserves_bind; auto with preserves.
  intros [r|]; auto with preserves.
  destruct (res_decompileCompleted r); auto with preserves.
  destruct (res_getDecompiledFunction r); auto with preserves.
Qed.

Lemma get_functions_preserves : preserves get_functions.
Proof. apply preserves_bind; auto with preserves. Qed.

Lemma get_symbols_preserves : preserves get_symbols.
Proof. apply preserves_bind; auto with preserves. Qed.

Lemma disassembly_loop_preserves rounds current_addr instructions :
  preserves (disassembly_loop rounds current_addr instructions).
Proof.
  revert current_addr instructions.
  induction rounds as [|rounds IH]; intros current_addr instructions; simpl;
    auto with preserves.
  apply preserves_bind; auto with preserves.
  intros [i|]; auto with preserves.
  apply preserves_bind; auto with preserves.
  intros comment. apply preserves_bind; auto.
  intros w. split; reflexivity.
Qed.

Lemma get_disassembly_preserves address num_instructions :
  preserves (get_disassembly address num_instructions).
Proof.
  apply preserves_bind; auto with preserves.
  intros _. apply disassembly_loop_preserves.
Qed.

Hint Resolve get_entry_point_preserves decompile_function_preserves
  get_functions_preserves get_symbols_preserves get_disassembly_preserves
  : preserves.

Lemma analyze_body_preserves : preserves analyze_body.
Proof.
  unfold analyze_body.
  repeat (apply preserves_bind; [auto with preserves | intros ?]);
    auto with preserves.
  - intros w. split; reflexivity.
  - match goal with
    | |- preserves (match ?x with Some _ => _ | None => _ end) =>
        destruct x; auto with preserves
    end.
Qed.

Lemma analyze_body_shape (w w1 : World) (v : value) :
  analyze_body w = (Ok v, w1) -> is_analysis_report v.
Proof.
  unfold analyze_body. intros H.
  repeat (apply bind_ok in H; destruct H as (? & ? & _ & H)).
  injection H as <- _. split; reflexivity.
Qed.

Lemma error_report_shape (e : Exception) (program_name : string) :
  is_error_report (error_report e program_name).
Proof. split; reflexivity. Qed.

Lemma shapes_exclusive (v : value) :
  is_analysis_report v -> is_error_report v -> False.
Proof. intros [_ Hnone] [_ Hsome]. congruence. Qed.

Lemma analyze_program_on_return (w w1 : World) (v : value) :
  analyze_body w = (Ok v, w1) ->
  analyze_program w = (Ok v, w1) /\ is_analysis_report v.
Proof.
  intros H. split.
  - unfold analyze_program, try_except. now rewrite H.
  - eapply analyze_body_shape; eauto.
Qed.

Lemma analyze_program_on_raise (w w1 : World) (e : Exception) :
  analyze_body w = (Raise e, w1) ->
  (currentProgram w = None ->
     analyze_program w = (Ok (error_report e "unknown"), w1))
  /\ (forall p program_name,
        currentProgram w = Some p ->
        getName p = Ok program_name ->
        analyze_program w
          = (Ok (error_report e program_name), record_call CGetName w1)).
Proof.
  intros H.
  destruct (analyze_body_preserves w) as [Hp _]. rewrite H in Hp. simpl in Hp.
  split.
  - intros Hnone.
    unfold analyze_program, try_except. rewrite H.
    unfold analyze_handler, bind. rewrite Hp, Hnone. reflexivity.
  - intros p program_name Hsome Hname.
    unfold analyze_program, try_except. rewrite H.
    unfold analyze_handler, bind, query. rewrite Hp, Hsome, Hname.
    reflexivity.
Qed.

Lemma analyze_program_one_shape (w : World) (v : value) :
  fst (analyze_program w) = Ok v ->
  (is_analysis_report v /\ ~ is_error_report v)
  \/ (is_error_report v /\ ~ is_analysis_report v).
Proof.
  unfold analyze_program, try_except.
  destruct (analyze_body w) as [[v0|e] w1] eqn:H.
  - simpl. intros Hv. injection Hv as <-. left.
    pose proof (analyze_body_shape _ H) as Hshape.
    split; [exact Hshape|]. intros Herr. eapply shapes_exclusive; eauto.
  - unfold analyze_handler, bind, query.
    assert (Herr : forall n, is_error_report (error_report e n)
                             /\ ~ is_analysis_report (error_report e n)).
    { intros n. split; [apply error_report_shape|].
      intros Ha. eapply shapes_exclusive; eauto. apply error_report_shape. }
    destruct (currentProgram w1) as [p|].
    + destruct (getName p) as [n|e']; simpl; intros Hv;
        [injection Hv as <-; right; apply Herr | discriminate].
    + simpl. intros Hv. injection Hv as <-. right. apply Herr.
Qed.

(** [analyze_program] returns, in one of the two shapes and without
    touching the program or the output, whenever the program name is
    available to its handler. *)
Lemma analyze_program_returns (w : World) :
  name_available w ->
  exists v w1,
    analyze_program w = (Ok v, w1)
    /\ (is_analysis_report v \/ is_error_report v)
    /\ currentProgram w1 = currentProgram w
    /\ stdout w1 = stdout w.
Proof.
  intros Hname.
  destruct (analyze_body_preserves w) as [Hp Hs].
  destruct (analyze_body w) as [[v|e] w1] eqn:H; simpl in Hp, Hs.
  - apply analyze_program_on_return in H as [Hrun Hshape].
    exists v, w1. auto.
  - apply analyze_program_on_raise in H as [Hnone Hsome].
    unfold name_available in Hname.
    destruct (currentProgram w) as [p|] eqn:Hcur.
    + destruct Hname as [n Hn].
      exists (error_report e n), (record_call CGetName w1).
      split; [apply (Hsome p n eq_refl Hn)|].
      split; [right; apply error_report_shape|]. auto.
    + exists (error_report e "unknown"), w1.
      split; [apply (Hnone eq_refl)|].
      split; [right; apply error_report_shape|]. auto.
Qed.

(** A fault of [json.dumps] leaves [main] after the start marker has been
    printed, and nothing is printed after it. *)
Lemma main_serialisation_fault (w w1 : World) (v : value) (e : Exception) :
  new_ConsoleTaskMonitor = Ok tt ->
  analyze_program (record_call CNewConsoleTaskMonitor w) = (Ok v, w1) ->
  json_dumps v = Raise e ->
  fst (main w) = Raise e
  /\ stdout (snd (main w)) = (stdout w1 ++ [JSON_START])%list.
Proof.
  intros Hmon Hrun Hdumps.
  unfold main, bind, invoke, print. rewrite Hmon. simpl.
  rewrite Hrun. simpl. rewrite Hdumps. split; reflexivity.
Qed.

(** C6, as the script has it.  A run in which [ConsoleTaskMonitor()]
    answers, the program name is available to the error handler and
    [json.dumps] answers ends normally and prints exactly the start marker,
    the serialised result (full report or error report) and the end marker.
    [rename_symbol] and [set_data_type] return a result on every world. *)
Theorem main_emits_one_document (w : World) :
  (new_ConsoleTaskMonitor = Ok tt ->
   name_available w ->
   (forall v,
      fst (analyze_program (record_call CNewConsoleTaskMonitor w)) = Ok v ->
      exists text, json_dumps v = Ok text) ->
   exists v w1 text,
     analyze_program (record_call CNewConsoleTaskMonitor w) = (Ok v, w1)
     /\ (is_analysis_report v \/ is_error_report v)
     /\ json_dumps v = Ok text
     /\ main w
        = (Ok tt,
           {| currentProgram := currentProgram w;
              calls := calls w1 ++ [CJsonDumps v];
              stdout := stdout w ++ [JSON_START; text; JSON_END] |}))
  /\ (forall address_str new_name, exists success message,
        fst (rename_symbol address_str new_name w)
          = Ok (mutation_result success message))
  /\ (forall address_str type_str, exists success message,
        fst (set_data_type address_str type_str w)
          = Ok (mutation_result success message)).
Proof.
  split; [|split].
  - intros Hmon Hname Hdumps.
    destruct (analyze_program_returns (record_call CNewConsoleTaskMonitor w))
      as (v & w1 & Hrun & Hshape & Hp & Hs); [exact Hname|].
    destruct (Hdumps v) as [text Htext]; [now rewrite Hrun|].
    exists v, w1, text. repeat split; auto.
    unfold main, bind, invoke, print. rewrite Hmon. simpl.
    rewrite Hrun. simpl. rewrite Htext. simpl.
    rewrite Hp, Hs. simpl. now rewrite <- !app_assoc.
  - intros. apply rename_symbol_returns.
  - intros. apply set_data_type_returns.
Qed.

End Report.

Lemma main_emits_one_document_witness :
  exists text,
    fst (main (Mem.boot Mem.sample)) = Ok tt
    /\ stdout (snd (main (Mem.boot Mem.sample))) = [JSON_START; text; JSON_END].
Proof.
  destruct (main_emits_one_document (Mem.boot Mem.sample)) as (Hmain & _).
  destruct Hmain as (v & w1 & text & _ & _ & _ & Hrun).
  - reflexivity.
  - exists "a.out". reflexivity.
  - intros v Hv. vm_compute in Hv. injection Hv as <-.
    eexists. vm_compute. reflexivity.
  - exists text. rewrite Hrun. split; reflexivity.
Defined.

(** C6, against the wording.  A function signature holding the byte 0xe9
    makes [json.dumps] raise: the run ends with that exception after the
    start marker alone has been printed.  And when [getName] raises, the step
    that builds the report raises, the handler's own name lookup raises
    again, and the exception leaves [analyze_program] and [main] before
    anything is printed. *)
Lemma main_fault_escapes_counterexample :
  (fst (main (Mem.boot Mem.latin))
     = Raise (Mem.fault "UnicodeDecodeError"
                "'utf8' codec can't decode byte: invalid start byte")
   /\ stdout (snd (main (Mem.boot Mem.latin))) = [JSON_START]
   /\ ~ emits_one_document (Mem.boot Mem.latin))
  /\ (fst (analyze_body (Mem.boot (Mem.with_broken Mem.sample ["getName"])))
        = Raise (Mem.fault "IOException" "getName: database is closed")
      /\ fst (main (Mem.boot (Mem.with_broken Mem.sample ["getName"])))
           = Raise (Mem.fault "IOException" "getName: database is closed")
      /\ stdout (snd (main (Mem.boot (Mem.with_broken Mem.sample ["getName"]))))
           = []
      /\ ~ emits_one_document
             (Mem.boot (Mem.with_broken Mem.sample ["getName"]))).
Proof.
  assert (Hlatin : fst (main (Mem.boot Mem.latin))
                   = Raise (Mem.fault "UnicodeDecodeError"
                              "'utf8' codec can't decode byte: invalid start byte"))
    by (vm_compute; reflexivity).
  assert (Hname : fst (main (Mem.boot (Mem.with_broken Mem.sample ["getName"])))
                  = Raise (Mem.fault "IOException" "getName: database is closed"))
    by (vm_compute; reflexivity).
  split.
  - split; [exact Hlatin|]. split; [vm_compute; reflexivity|].
    intros (text & w' & Hrun & _). rewrite Hrun in Hlatin. discriminate Hlatin.
  - split; [vm_compute; reflexivity|]. split; [exact Hname|].
    split; [vm_compute; reflexivity|].
    intros (text & w' & Hrun & _). rewrite Hrun in Hname. discriminate Hname.
Qed.

(** ** The disassembly walk *)


Section Walk.

Context {AS : AddressSpace} {E : Engine}.

(** The listing of program [p] as a snapshot: the instruction and the
    end-of-line comment at each address, and the offset of an address. *)
Variable p : Program.
Variable instr_at : Address -> option Instruction.
Variable comment_at : Address -> option string.
Variable offset : Address -> Z.

Hypothesis listing_instructions :
  forall a, getInstructionAt a p = Ok (instr_at a).
Hypothesis listing_comments :
  forall a, getComment EOL_COMMENT a p = Ok (comment_at a).
(** The instruction at [a] starts at [a] and is at least one byte long, and
    [Address.add], when it answers, adds to the offset. *)
Hypothesis instruction_starts_there :
  forall a i, instr_at a = Some i -> ins_getAddress i = a.
Hypothesis instruction_not_empty :
  forall a i, instr_at a = Some i -> 0 < ins_getLength i.
Hypothesis add_moves_offset :
  forall a n a', addr_add a n = Ok a' -> offset a' = offset a + n.




End Walk.

(** On any engine: when the engine refuses the address past the instruction
    decoded at the start ([Address.add] raises, as at the end of the address
    space), the walk does not end there but passes the exception on. *)
Lemma get_disassembly_add_fault {AS : AddressSpace} {E : Engine}
    (w : World) (p : Program) (a : Address) (i : Instruction)
    (c : option string) (e : Exception) (n : Z) :
  currentProgram w = Some p ->
  getInstructionAt a p = Ok (Some i) ->
  getComment EOL_COMMENT a p = Ok c ->
  addr_add (ins_getAddress i) (ins_getLength i) = Raise e ->
  0 < n ->
  fst (get_disassembly a n w) = Raise e.
Proof.
  intros Hp Hi Hc Hadd Hn.
  unfold get_disassembly, bind at 1, accessor. rewrite Hp.
  destruct (Z.to_nat n) as [|k] eqn:Hk; [lia|].
  simpl. unfold bind at 1, query at 1. rewrite Hp, Hi.
  unfold bind at 1, query at 1. simpl currentProgram. rewrite Hp, Hc.
  unfold bind at 1. now rewrite Hadd.
Qed.






Example get_disassembly_negative_bound :
  fst (get_disassembly 4096 (-5) (Mem.boot Mem.sample)) = Ok [].
Proof. reflexivity. Qed.

Example get_disassembly_sample :
  fst (get_disassembly 4097 2 (Mem.boot Mem.sample))
    = Ok [VDict [("address", VStr "1001"); ("mnemonic", VStr "MOV");
                 ("operands", VStr "EBP,ESP"); ("bytes", VStr "89 e5");
                 ("comment", VStr "")];
          VDict [("address", VStr "1003"); ("mnemonic", VStr "MOV");
                 ("operands", VStr "EAX,0x0"); ("bytes", VStr "b8 00 00 00 00");
                 ("comment", VStr "return value")]].
Proof. reflexivity. Qed.

(** ** Further properties: the byte column read back *)

Lemma format_02x_masked_pair (b : Z) :
  exists hi lo,
    format_02x (Z.land b 255) = String hi (String lo EmptyString)
    /\ 16 * hex_value hi + hex_value lo = b mod 256.
Proof.
  pose proof (Z.mod_pos_bound b 256 ltac:(lia)) as Hb.
  pose proof (format_02x_byte Hb) as H.
  rewrite land_255_mod.
  destruct (format_02x (b mod 256)) as [|hi [|lo [|c s]]]; simpl in H;
    try discriminate.
  exists hi, lo. split; [reflexivity|].
  apply andb_prop in H as [_ H]. now apply Z.eqb_eq.
Qed.

Lemma render_bytes_cons (b : Z) (bs : list Z) :
  render_bytes (b :: bs)
    = match bs with
      | [] => format_02x (Z.land b 255)
      | _ :: _ => format_02x (Z.land b 255) ++ " " ++ render_bytes bs
      end.
Proof. destruct bs; reflexivity. Qed.

(** X8.  The byte column can be read back: decoding the rendering of [bs]
    gives each byte's value modulo 256, so two byte lists render alike only
    if they agree modulo 256, and the column of [k >= 1] bytes is [3k - 1]
    characters long. *)
Theorem render_bytes_decodes (bs : list Z) :
  decode_bytes (render_bytes bs) = map (fun b => b mod 256) bs
  /\ (forall bs', render_bytes bs = render_bytes bs' ->
        map (fun b => b mod 256) bs = map (fun b => b mod 256) bs')
  /\ String.length (render_bytes bs) = (3 * List.length bs - 1)%nat.
Proof.
  assert (Hdec : forall l, decode_bytes (render_bytes l)
                           = map (fun b => b mod 256) l).
  { induction l as [|b l IH]; [reflexivity|].
    rewrite render_bytes_cons.
    destruct (format_02x_masked_pair b) as (hi & lo & -> & Hv).
    destruct l as [|b' l].
    - change (decode_bytes (String hi (String lo EmptyString)))
        with [16 * hex_value hi + hex_value lo].
      now rewrite Hv.
    - change (decode_bytes (String hi (String lo EmptyString) ++ " "
                            ++ render_bytes (b' :: l)))
        with ((16 * hex_value hi + hex_value lo)
              :: decode_bytes (render_bytes (b' :: l))).
      rewrite Hv, IH. reflexivity. }
  split; [apply Hdec|]. split.
  - intros bs' Heq. rewrite <- !Hdec. now rewrite Heq.
  - induction bs as [|b l IH]; [reflexivity|].
    rewrite render_bytes_cons.
    destruct (format_02x_masked_pair b) as (hi & lo & -> & _).
    destruct l as [|b' l]; [reflexivity|].
    change (String.length (String hi (String lo EmptyString) ++ " "
                           ++ render_bytes (b' :: l)))
      with (S (S (S (String.length (render_bytes (b' :: l)))))).
    rewrite IH. simpl List.length. lia.
Qed.

(** ** Further properties: what the report pipeline reads and writes *)

Section Pipeline.

Context {AS : AddressSpace} {E : Engine}.

Lemma preserves_try_except {A} (m : M A) (h : Exception -> M A) :
  preserves m -> (forall e, preserves (h e)) -> preserves (try_except m h).
Proof.
  intros Hm Hh w. unfold try_except.
  destruct (Hm w) as [Hp Hs].
  destruct (m w) as [[a|e] w']; simpl in *; auto.
  destruct (Hh e w') as [Hp' Hs']. split; congruence.
Qed.

Lemma analyze_handler_preserves (e : Exception) : preserves (analyze_handler e).
Proof.
  apply preserves_bind; [|intros; apply preserves_ret].
  intros w. destruct (currentProgram w) eqn:Hp.
  - rewrite <- Hp. apply (preserves_query "getName" CGetName getName w).
  - split; [exact Hp | reflexivity].
Qed.

Lemma analyze_program_preserves : preserves analyze_program.
Proof.
  apply preserves_try_except.
  - apply analyze_body_preserves.
  - apply analyze_handler_preserves.
Qed.

(** *** Calls issued *)

Variable P : Call -> bool.

Lemma issues_only_ret {A} (a : A) : issues_only P (ret a).
Proof. intros w. exists []. simpl. now rewrite app_nil_r. Qed.

Lemma issues_only_bind {A B} (m : M A) (k : A -> M B) :
  issues_only P m -> (forall a, issues_only P (k a)) ->
  issues_only P (bind m k).
Proof.
  intros Hm Hk w. unfold bind.
  destruct (Hm w) as (l & Hl & HP).
  destruct (m w) as [[a|e] w']; simpl in *.
  - destruct (Hk a w') as (l' & Hl' & HP').
    exists (l ++ l')%list. split.
    + now rewrite Hl', Hl, app_assoc.
    + rewrite forallb_app. now rewrite HP, HP'.
  - eauto.
Qed.

Lemma issues_only_query {A} attr c (f : Program -> outcome A) :
  P c = true -> issues_only P (query attr c f).
Proof.
  intros Hc w. unfold query. destruct (currentProgram w).
  - exists [c]. simpl. now rewrite Hc.
  - exists []. simpl. now rewrite app_nil_r.
Qed.

Lemma issues_only_invoke {A} c (r : outcome A) :
  P c = true -> issues_only P (invoke c r).
Proof. intros Hc w. exists [c]. simpl. now rewrite Hc. Qed.

Lemma issues_only_accessor attr : issues_only P (accessor attr).
Proof.
  intros w. unfold accessor. exists [].
  destruct (currentProgram w); simpl; now rewrite app_nil_r.
Qed.

Lemma issues_only_try_except {A} (m : M A) (h : Exception -> M A) :
  issues_only P m -> (forall e, issues_only P (h e)) ->
  issues_only P (try_except m h).
Proof.
  intros Hm Hh w. unfold try_except.
  destruct (Hm w) as (l & Hl & HP).
  destruct (m w) as [[a|e] w']; simpl in *; eauto.
  destruct (Hh e w') as (l' & Hl' & HP').
  exists (l ++ l')%list. split.
  - now rewrite Hl', Hl, app_assoc.
  - rewrite forallb_app. now rewrite HP, HP'.
Qed.

End Pipeline.

Section ReadOnly.

Context {AS : AddressSpace} {E : Engine}.

Ltac quiet_step :=
  first [ apply issues_only_ret
        | apply issues_only_query; reflexivity
        | apply issues_only_invoke; reflexivity
        | apply issues_only_accessor
        | apply issues_only_bind; [|intros ?] ].

Lemma get_entry_point_quiet : issues_only (fun c => negb (is_mutation c)) get_entry_point.
Proof.
  unfold get_entry_point. quiet_step; [quiet_step|].
  destruct a; quiet_step.
Qed.

Lemma decompile_function_quiet function :
  issues_only (fun c => negb (is_mutation c)) (decompile_function function).
Proof.
  destruct function as [f|]; simpl; [|quiet_step].
  quiet_step; [quiet_step|].
  destruct a as [r|]; [|quiet_step].
  destruct (res_decompileCompleted r); [|quiet_step].
  destruct (res_getDecompiledFunction r); quiet_step.
Qed.

Lemma get_functions_quiet : issues_only (fun c => negb (is_mutation c)) get_functions.
Proof. unfold get_functions. repeat quiet_step. Qed.

Lemma get_symbols_quiet : issues_only (fun c => negb (is_mutation c)) get_symbols.
Proof. unfold get_symbols. repeat quiet_step. Qed.

Lemma disassembly_loop_quiet rounds current_addr instructions :
  issues_only (fun c => negb (is_mutation c)) (disassembly_loop rounds current_addr instructions).
Proof.
  revert current_addr instructions.
  induction rounds as [|rounds IH]; intros current_addr instructions; simpl.
  - quiet_step.
  - quiet_step; [quiet_step|].
    destruct a as [i|]; [|quiet_step].
    quiet_step; [quiet_step|].
    quiet_step; [|apply IH].
    intros w. exists []. simpl. now rewrite app_nil_r.
Qed.

Lemma get_disassembly_quiet address num_instructions :
  issues_only (fun c => negb (is_mutation c)) (get_disassembly address num_instructions).
Proof.
  unfold get_disassembly. quiet_step; [quiet_step|].
  apply disassembly_loop_quiet.
Qed.

Lemma analyze_body_quiet : issues_only (fun c => negb (is_mutation c)) analyze_body.
Proof.
  unfold analyze_body.
  quiet_step; [quiet_step|].
  quiet_step; [intros w; exists [COpenProgram]; split; reflexivity|].
  quiet_step; [apply get_entry_point_quiet|].
  quiet_step; [quiet_step|].
  quiet_step; [destruct a2; [apply decompile_function_quiet | quiet_step]|].
  quiet_step; [apply get_functions_quiet|].
  quiet_step; [apply get_symbols_quiet|].
  quiet_step; [apply get_disassembly_quiet|].
  repeat quiet_step.
Qed.

Lemma analyze_handler_quiet (e : Exception) :
  issues_only (fun c => negb (is_mutation c)) (analyze_handler e).
Proof.
  unfold analyze_handler. quiet_step; [|quiet_step].
  intros w. destruct (currentProgram w) eqn:Hp.
  - assert (H : issues_only (fun c => negb (is_mutation c))
                  (query "getName" CGetName getName))
      by (apply issues_only_query; reflexivity).
    apply H.
  - exists []. simpl. now rewrite app_nil_r.
Qed.

(** X1.  Building the report is read-only: on every world, whether
    [analyze_program] returns or raises, the bound program and the output are
    as before and none of the calls it issued is a [setName] or a
    [createData]. *)
Theorem analyze_program_read_only (w : World) :
  currentProgram (snd (analyze_program w)) = currentProgram w
  /\ stdout (snd (analyze_program w)) = stdout w
  /\ forallb (fun c => negb (is_mutation c))
       (issued w (snd (analyze_program w))) = true.
Proof.
  destruct (analyze_program_preserves w) as [Hp Hs].
  split; [exact Hp|]. split; [exact Hs|].
  assert (Hq : issues_only (fun c => negb (is_mutation c)) analyze_program).
  { apply issues_only_try_except.
    - apply analyze_body_quiet.
    - apply analyze_handler_quiet. }
  destruct (Hq w) as (l & Hl & HP).
  apply issued_calls in Hl. now rewrite Hl.
Qed.

(** X2.  What [main] prints is decided by the first step that raises, on
    every engine and world.  When the construction of the task monitor
    raises, or the monitor is made and [analyze_program] raises, [main]
    raises that exception and has printed nothing, the start marker
    included: the marker is printed after the analysis.  When the analysis
    returns a value and [json.dumps] raises for it, [main] raises that
    exception and has printed the start marker alone.  Otherwise [main]
    returns and has printed the start marker, the text [json.dumps] gave for
    the value the analysis returned, and the end marker, in that order. *)
Theorem main_output_frame (w : World) :
  (fst (main w), stdout (snd (main w)))
    = match new_ConsoleTaskMonitor with
      | Raise e => (Raise e, stdout w)
      | Ok _ =>
          match fst (analyze_program (record_call CNewConsoleTaskMonitor w)) with
          | Raise e => (Raise e, stdout w)
          | Ok result =>
              match json_dumps result with
              | Raise e => (Raise e, (stdout w ++ [JSON_START])%list)
              | Ok text =>
                  (Ok tt, (stdout w ++ [JSON_START; text; JSON_END])%list)
              end
          end
      end.
Proof.
  pose proof (analyze_program_preserves (record_call CNewConsoleTaskMonitor w))
    as [_ Hs].
  unfold main, bind, invoke, print.
  destruct new_ConsoleTaskMonitor as [[]|e]; cbn [fst snd]; [|reflexivity].
  destruct (analyze_program (record_call CNewConsoleTaskMonitor w))
    as [[v|e] w1]; cbn [fst snd stdout record_call] in *.
  - destruct (json_dumps v) as [text|e]; cbn [fst snd stdout record_call];
      rewrite Hs; [|reflexivity].
    now rewrite <- !app_assoc.
  - now rewrite Hs.
Qed.

(** X9.  With no program bound, [analyze_program] returns on every engine,
    and what it returns is an error report named 'unknown'; when the
    decompiler interface can be created and opened, its message is the
    [AttributeError] of the first access to the program. *)
Theorem analyze_program_unbound (w : World) :
  currentProgram w = None ->
  exists e w1,
    analyze_program w = (Ok (error_report e "unknown"), w1)
    /\ currentProgram w1 = None
    /\ (new_DecompInterface = Ok tt -> openProgram None = Ok tt ->
          e = AttributeError "getSymbolTable").
Proof.
  intros Hp.
  assert (Hbody : exists e w1,
            analyze_body w = (Raise e, w1)
            /\ (new_DecompInterface = Ok tt -> openProgram None = Ok tt ->
                  e = AttributeError "getSymbolTable")).
  { unfold analyze_body, bind at 1, invoke at 1.
    destruct new_DecompInterface as [[]|e].
    - unfold bind at 1, invoke at 1. simpl currentProgram. rewrite Hp.
      destruct (openProgram None) as [[]|e].
      + unfold bind at 1, get_entry_point, bind at 1, query at 1.
        simpl currentProgram. rewrite Hp. eauto.
      + do 2 eexists. split; [reflexivity|]. discriminate.
    - do 2 eexists. split; [reflexivity|]. discriminate. }
  destruct Hbody as (e & w1 & Hbody & He).
  destruct (analyze_body_preserves w) as [Hp1 _].
  rewrite Hbody in Hp1. simpl in Hp1.
  exists e, w1. split; [|split; [congruence | exact He]].
  apply analyze_program_on_raise in Hbody as [Hnone _]. now apply Hnone.
Qed.

End ReadOnly.

Lemma analyze_program_unbound_witness :
  analyze_program Mem.unbound
    = (Ok (error_report (AttributeError "getSymbolTable") "unknown"),
       after Mem.unbound [CNewDecompInterface; COpenProgram]).
Proof.
  destruct (analyze_program_unbound Mem.unbound eq_refl)
    as (e & w1 & Hrun & _ & He).
  rewrite (He eq_refl eq_refl) in Hrun.
  rewrite Hrun. f_equal.
  assert (H : snd (analyze_program Mem.unbound)
              = after Mem.unbound [CNewDecompInterface; COpenProgram])
    by reflexivity.
  now rewrite Hrun in H.
Defined.

(** ** Further properties: the report is made of the single operations *)

Section Composition.

Context {AS : AddressSpace} {E : Engine}.

Lemma reads_ret {A} (a : A) : reads (ret a).
Proof. intros w w' _. reflexivity. Qed.

Lemma reads_query {A} attr c (f : Program -> outcome A) :
  reads (query attr c f).
Proof. intros w w' H. unfold query. rewrite <- H. now destruct (currentProgram w). Qed.

Lemma reads_invoke {A} c (r : outcome A) : reads (invoke c r).
Proof. intros w w' _. reflexivity. Qed.

Lemma reads_accessor attr : reads (accessor attr).
Proof.
  intros w w' H. unfold accessor. rewrite <- H. now destruct (currentProgram w).
Qed.

Lemma reads_bind {A B} (m : M A) (k : A -> M B) :
  reads m -> preserves m -> (forall a, reads (k a)) -> reads (bind m k).
Proof.
  intros Hm Hpm Hk w w' H. unfold bind.
  pose proof (Hm w w' H) as Hr.
  destruct (Hpm w) as [Hp _]. destruct (Hpm w') as [Hp' _].
  destruct (m w) as [[a|e] w1], (m w') as [[a'|e'] w1']; simpl in *;
    try discriminate.
  - injection Hr as <-. apply Hk. congruence.
  - now injection Hr as <-.
Qed.

Lemma get_entry_point_reads : reads get_entry_point.
Proof.
  apply reads_bind;
    [apply reads_query | apply preserves_query | intros [|ep eps]].
  - apply reads_query.
  - apply reads_ret.
Qed.

Lemma decompile_function_reads function : reads (decompile_function function).
Proof.
  destruct function as [f|]; simpl; [|apply reads_ret].
  apply reads_bind; [apply reads_invoke | apply preserves_invoke | intros [r|]];
    [|apply reads_ret].
  destruct (res_decompileCompleted r); [|apply reads_ret].
  destruct (res_getDecompiledFunction r); apply reads_ret.
Qed.

Lemma get_functions_reads : reads get_functions.
Proof.
  apply reads_bind;
    [apply reads_query | apply preserves_query | intros; apply reads_ret].
Qed.

Lemma get_symbols_reads : reads get_symbols.
Proof.
  apply reads_bind;
    [apply reads_query | apply preserves_query | intros; apply reads_ret].
Qed.

Lemma disassembly_loop_reads rounds current_addr instructions :
  reads (disassembly_loop rounds current_addr instructions).
Proof.
  revert current_addr instructions.
  induction rounds as [|rounds IH]; intros current_addr instructions; simpl;
    [apply reads_ret|].
  apply reads_bind; [apply reads_query | apply preserves_query | intros [i|]];
    [|apply reads_ret].
  apply reads_bind; [apply reads_query | apply preserves_query | intros c].
  apply reads_bind; [| |intros; apply IH].
  - intros w w' _. reflexivity.
  - intros w. split; reflexivity.
Qed.

Lemma get_disassembly_reads address num_instructions :
  reads (get_disassembly address num_instructions).
Proof.
  apply reads_bind;
    [apply reads_accessor | apply preserves_accessor
     | intros; apply disassembly_loop_reads].
Qed.

(** One step of a run that returned: its result, and that it kept the
    program. *)
Lemma step_back {A} (m : M A) (w0 w w' : World) (a : A) :
  reads m -> preserves m ->
  currentProgram w = currentProgram w0 ->
  m w = (Ok a, w') ->
  fst (m w0) = Ok a /\ currentProgram w' = currentProgram w0.
Proof.
  intros Hr Hp Hw Hrun. split.
  - rewrite <- (Hr w w0 Hw). now rewrite Hrun.
  - destruct (Hp w) as [Hp' _]. rewrite Hrun in Hp'. simpl in Hp'. congruence.
Qed.

(** X10.  A full report is made of what the single operations return on the
    same program: its entry point is [get_entry_point]'s address, its entry
    function is [decompile_function] of the function the engine finds
    containing that address ([None] when there is none), its functions and
    symbols are [get_functions]'s and [get_symbols]'s lists, and its
    disassembly is [get_disassembly] from the entry address with bound
    100. *)
Theorem analyze_program_fields (w w1 : World) (v : value) :
  analyze_program w = (Ok v, w1) ->
  is_analysis_report v ->
  exists p entry containing,
    currentProgram w = Some p
    /\ fst (get_entry_point w) = Ok entry
    /\ getFunctionContaining entry p = Ok containing
    /\ field "entry_point" v = Some (VStr (addr_str entry))
    /\ (exists x, fst (decompile_function containing w) = Ok x
                  /\ field "entry_function" v = Some x)
    /\ (exists fs, fst (get_functions w) = Ok fs
                   /\ field "functions" v = Some (VList fs))
    /\ (exists ss, fst (get_symbols w) = Ok ss
                   /\ field "symbols" v = Some (VList ss))
    /\ (exists d, fst (get_disassembly entry 100 w) = Ok d
                  /\ field "disassembly" v = Some (VList d)).
Proof.
  intros Hrun Hshape.
  assert (Hbody : analyze_body w = (Ok v, w1)).
  { unfold analyze_program, try_except in Hrun.
    destruct (analyze_body w) as [[v0|e] w0] eqn:Hb; [exact Hrun|].
    exfalso.
    assert (Hv : fst (analyze_program w) = Ok v)
      by (unfold analyze_program, try_except; now rewrite Hb, Hrun).
    destruct (analyze_program_one_shape _ Hv) as [[Ha Hne] | [He Hna]].
    - unfold analyze_handler, bind, query in Hrun.
      destruct (currentProgram w0); [destruct (getName p)|];
        simpl in Hrun; try discriminate;
        injection Hrun as <- _; apply Hne, error_report_shape.
    - now apply Hna. }
  clear Hrun Hshape. unfold analyze_body in Hbody.
  apply bind_ok in Hbody as (? & wa & Ha & Hbody).
  apply bind_ok in Hbody as (? & wb & Hb & Hbody).
  assert (Hwb : currentProgram wb = currentProgram w).
  { unfold invoke in Ha, Hb. injection Ha as _ <-. injection Hb as _ <-.
    reflexivity. }
  apply bind_ok in Hbody as (entry & wc & Hentry & Hbody).
  destruct (step_back _ _ get_entry_point_reads get_entry_point_preserves Hwb Hentry)
    as [Hentry0 Hwc].
  apply bind_ok in Hbody as (containing & wd & Hcont & Hbody).
  assert (Hp : exists p, currentProgram w = Some p
                         /\ getFunctionContaining entry p = Ok containing
                         /\ currentProgram wd = currentProgram w).
  { unfold query in Hcont. rewrite Hwc in Hcont.
    destruct (currentProgram w) as [p|]; [|discriminate].
    exists p. injection Hcont as Hc <-. simpl. auto. }
  destruct Hp as (p & Hp & Hcont0 & Hwd).
  apply bind_ok in Hbody as (dec & we & Hdec & Hbody).
  assert (Hdec' : decompile_function containing wd = (Ok dec, we))
    by (destruct containing; exact Hdec).
  destruct (step_back _ _ (decompile_function_reads containing)
              (decompile_function_preserves containing) Hwd Hdec')
    as [Hdec0 Hwe].
  apply bind_ok in Hbody as (fs & wf & Hfs & Hbody).
  destruct (step_back _ _ get_functions_reads get_functions_preserves Hwe Hfs)
    as [Hfs0 Hwf].
  apply bind_ok in Hbody as (ss & wg & Hss & Hbody).
  destruct (step_back _ _ get_symbols_reads get_symbols_preserves Hwf Hss)
    as [Hss0 Hwg].
  apply bind_ok in Hbody as (d & wh & Hd & Hbody).
  destruct (step_back _ _ (get_disassembly_reads entry 100)
              (get_disassembly_preserves entry 100) Hwg Hd) as [Hd0 _].
  repeat (apply bind_ok in Hbody as (? & ? & _ & Hbody)).
  injection Hbody as <- _.
  exists p, entry, containing. repeat split; eauto.
Qed.

End Composition.

Lemma analyze_program_fields_witness :
  exists v w1,
    analyze_program (Mem.boot Mem.sample) = (Ok v, w1)
    /\ fst (get_entry_point (Mem.boot Mem.sample)) = Ok 4096
    /\ (exists d, fst (get_disassembly 4096 100 (Mem.boot Mem.sample)) = Ok d
                  /\ field "disassembly" v = Some (VList d))
    /\ (exists fs, fst (get_functions (Mem.boot Mem.sample)) = Ok fs
                   /\ field "functions" v = Some (VList fs)).
Proof.
  destruct (analyze_program (Mem.boot Mem.sample)) as [o w1] eqn:Hrun.
  assert (Ho : exists v, o = Ok v /\ is_analysis_report v).
  { assert (H : fst (analyze_program (Mem.boot Mem.sample)) = o)
      by now rewrite Hrun.
    vm_compute in H. subst o. eexists. split; [reflexivity|].
    split; reflexivity. }
  destruct Ho as (v & -> & Hshape).
  destruct (@analyze_program_fields _ _ _ _ _ Hrun Hshape)
    as (p & entry & containing & Hp & Hentry & _ & _ & _ & Hfs & _ & Hd).
  assert (He : entry = 4096).
  { assert (H : fst (get_entry_point (Mem.boot Mem.sample)) = Ok 4096)
      by reflexivity.
    rewrite Hentry in H. now injection H. }
  subst entry.
  exists v, w1. repeat split; auto.
Defined.

(** ** Further properties: the mutation operations *)

Section MutationResults.

Context {AS : AddressSpace} {E : Engine}.




Lemma rename_symbol_world (w : World) (address_str new_name : string) :
  exists cs,
    calls (snd (rename_symbol address_str new_name w)) = (calls w ++ cs)%list
    /\ stdout (snd (rename_symbol address_str new_name w)) = stdout w
    /\ ((existsb is_mutation cs = false
         /\ currentProgram (snd (rename_symbol address_str new_name w))
              = currentProgram w)
        \/ (exists p a symbol rest,
              currentProgram w = Some p
              /\ getAddress address_str p = Ok a
              /\ getSymbols a p = Ok (symbol :: rest)
              /\ cs = [CGetAddress address_str; CGetSymbols a;
                       CSetName symbol new_name USER_DEFINED])).
Proof.
  unfold rename_symbol, try_except, bind, query, mutate.
  destruct (currentProgram w) as [p|] eqn:Hp.
  - destruct (getAddress address_str p) as [a|e] eqn:Ha; simpl.
    + rewrite Hp.
      destruct (getSymbols a p) as [[|symbol rest]|e] eqn:Hs; simpl.
      * exists [CGetAddress address_str; CGetSymbols a].
        rewrite <- app_assoc. auto.
      * rewrite Hp.
        exists [CGetAddress address_str; CGetSymbols a;
                CSetName symbol new_name USER_DEFINED].
        destruct (setName symbol new_name USER_DEFINED p) as [[[]|e] p'];
          simpl; rewrite <- !app_assoc;
          (split; [reflexivity|]; split; [reflexivity|]; right; eauto 8).
      * exists [CGetAddress address_str; CGetSymbols a].
        rewrite <- app_assoc. auto.
    + exists [CGetAddress address_str]. auto.
  - exists []. simpl. rewrite app_nil_r, Hp. auto.
Qed.

(** X11.  [rename_symbol] prints nothing and writes at most once: the only
    mutating call it can issue is [setName] on the first symbol bound at the
    resolved address, with the new name and [USER_DEFINED], and a call of
    [rename_symbol] that issues none leaves the program as it was. *)
Theorem rename_symbol_frame (w : World) (address_str new_name : string) :
  let w' := snd (rename_symbol address_str new_name w) in
  stdout w' = stdout w
  /\ (existsb is_mutation (issued w w') = false ->
        currentProgram w' = currentProgram w)
  /\ (forall c, In c (issued w w') -> is_mutation c = true ->
        exists p a symbol rest,
          currentProgram w = Some p
          /\ getAddress address_str p = Ok a
          /\ getSymbols a p = Ok (symbol :: rest)
          /\ c = CSetName symbol new_name USER_DEFINED)
  /\ (List.length (filter is_mutation (issued w w')) <= 1)%nat.
Proof.
  cbv zeta.
  destruct (rename_symbol_world w address_str new_name)
    as (cs & Hcalls & Hout & Hcase).
  apply issued_calls in Hcalls. rewrite Hcalls.
  split; [exact Hout|].
  destruct Hcase as [[Hnone Hsame] | (p & a & symbol & rest & Hp & Ha & Hs & ->)].
  - split; [auto|]. split.
    + intros c Hin Hc.
      assert (Hex : existsb is_mutation cs = true)
        by (apply existsb_exists; eauto).
      congruence.
    + clear - Hnone. induction cs as [|c cs IH]; simpl in *; [lia|].
      apply orb_false_elim in Hnone as [Hc Hcs]. rewrite Hc. auto.
  - split; [simpl; discriminate|]. split.
    + intros c [<- | [<- | [<- | []]]] Hc; try discriminate Hc.
      eauto 8.
    + simpl. lia.
Qed.

End MutationResults.

Lemma rename_symbol_frame_witness :
  issued (Mem.boot Mem.sample)
    (snd (rename_symbol "1000" "start" (Mem.boot Mem.sample)))
    = [CGetAddress "1000"; CGetSymbols 4096;
       CSetName Mem.sym_main "start" USER_DEFINED]
  /\ currentProgram (snd (rename_symbol "zz" "start" (Mem.boot Mem.sample)))
       = Some Mem.sample.
Proof.
  split; [reflexivity|].
  destruct (rename_symbol_frame (Mem.boot Mem.sample) "zz" "start")
    as (_ & Hsame & _).
  apply Hsame. reflexivity.
Defined.

(** ** Further properties: the bound of the walk *)

Section WalkBounds.

Context {AS : AddressSpace} {E : Engine}.

(** X5.  With a bound of zero or less the walk decodes nothing: on a bound
    program it returns the empty list without a call to the listing, and
    with no program bound it raises the [AttributeError] of [getListing]
    all the same. *)
Theorem get_disassembly_no_rounds (w : World) (address : Address)
    (num_instructions : Z) :
  num_instructions <= 0 ->
  (forall p, currentProgram w = Some p ->
     get_disassembly address num_instructions w = (Ok [], w))
  /\ (currentProgram w = None ->
        get_disassembly address num_instructions w
          = (Raise (AttributeError "getListing"), w)).
Proof.
  intros Hn.
  assert (Hz : Z.to_nat num_instructions = O) by lia.
  unfold get_disassembly, bind, accessor. rewrite Hz.
  split.
  - intros p Hp. now rewrite Hp.
  - intros Hp. now rewrite Hp.
Qed.

End WalkBounds.

Lemma get_disassembly_no_rounds_witness :
  get_disassembly 4096 (-5) (Mem.boot Mem.sample) = (Ok [], Mem.boot Mem.sample)
  /\ fst (get_disassembly 4096 0 Mem.unbound)
       = Raise (AttributeError "getListing").
Proof.
  destruct (@get_disassembly_no_rounds _ _ (Mem.boot Mem.sample) 4096 (-5)
              ltac:(lia)) as [Hbound _].
  destruct (@get_disassembly_no_rounds _ _ Mem.unbound 4096 0 ltac:(lia))
    as [_ Hunbound].
  split.
  - apply (Hbound Mem.sample). reflexivity.
  - rewrite Hunbound; reflexivity.
Defined.

(** ** Further properties: faults of the decompiler, the size of the
    window *)

Section Enumeration.

Context {AS : AddressSpace} {E : Engine}.

(** X13.  A decompiler that raises is not degraded to a missing entry
    function: when the entry address lies in a function and
    [decompileFunction] raises [e] for it, [analyze_program] returns the
    error report of [e] instead of a report, and neither functions nor
    symbols nor the listing are asked for. *)
Theorem analyze_program_decompiler_fault (w : World) (p : Program)
    (entry : Address) (f : Function) (e : Exception) (program_name : string) :
  currentProgram w = Some p ->
  new_DecompInterface = Ok tt ->
  openProgram (Some p) = Ok tt ->
  fst (get_entry_point w) = Ok entry ->
  getFunctionContaining entry p = Ok (Some f) ->
  decompileFunction f 30 = Raise e ->
  getName p = Ok program_name ->
  fst (analyze_program w) = Ok (error_report e program_name)
  /\ forallb (fun c => match c with
                       | CGetFunctions _ | CGetAllSymbols _
                       | CGetInstructionAt _ => false
                       | _ => true
                       end)
       (issued w (snd (analyze_program w))) = true.
Proof.
  intros Hp Hnew Hopen Hentry Hcont Hdec Hname.
  set (wb := record_call COpenProgram (record_call CNewDecompInterface w)).
  assert (Hwb : currentProgram wb = currentProgram w) by reflexivity.
  destruct (get_entry_point wb) as [r wc] eqn:Hrun.
  assert (Hr : r = Ok entry).
  { rewrite <- Hentry. rewrite <- (get_entry_point_reads wb w Hwb).
    now rewrite Hrun. }
  subst r.
  assert (Hwc : exists l, calls wc = (calls wb ++ l)%list
                          /\ currentProgram wc = Some p
                          /\ forallb (fun c => match c with
                                               | CGetFunctions _
                                               | CGetAllSymbols _
                                               | CGetInstructionAt _ => false
                                               | _ => true
                                               end) l = true).
  { assert (Hpb : currentProgram wb = Some p) by exact Hp.
    unfold get_entry_point, bind, query in Hrun.
    rewrite Hpb in Hrun.
    destruct (getExternalEntryPointIterator p) as [[|ep eps]|e0];
      [| |discriminate Hrun].
    - cbn [currentProgram record_call] in Hrun. rewrite Hpb in Hrun.
      injection Hrun as _ <-.
      exists [CGetExternalEntryPointIterator; CGetMinAddress].
      cbn [calls record_call currentProgram]. rewrite <- app_assoc. auto.
    - injection Hrun as _ <-.
      exists [CGetExternalEntryPointIterator].
      cbn [calls record_call currentProgram]. auto. }
  destruct Hwc as (l & Hl & Hpc & Hok).
  assert (Hbody : analyze_body w
                  = (Raise e,
                     record_call (CDecompileFunction f 30)
                       (record_call (CGetFunctionContaining entry) wc))).
  { unfold analyze_body, bind at 1, invoke at 1. rewrite Hnew.
    unfold bind at 1, invoke at 1. cbn [currentProgram record_call].
    rewrite Hp, Hopen.
    unfold bind at 1. fold wb. rewrite Hrun.
    unfold bind at 1, query at 1. rewrite Hpc, Hcont.
    unfold bind at 1, decompile_function, bind at 1, invoke at 1.
    now rewrite Hdec. }
  apply analyze_program_on_raise in Hbody as [_ Hsome].
  rewrite (Hsome p program_name Hp Hname). split; [reflexivity|].
  cbn [snd].
  assert (Hcalls :
            calls (record_call CGetName
                     (record_call (CDecompileFunction f 30)
                        (record_call (CGetFunctionContaining entry) wc)))
            = (calls w
               ++ ([CNewDecompInterface; COpenProgram]
                   ++ l
                   ++ [CGetFunctionContaining entry; CDecompileFunction f 30;
                       CGetName]))%list).
  { cbn [calls record_call]. rewrite Hl. unfold wb.
    cbn [calls record_call]. rewrite <- !app_assoc. reflexivity. }
  apply issued_calls in Hcalls. rewrite Hcalls.
  rewrite !forallb_app, Hok. reflexivity.
Qed.

Lemma disassembly_loop_extends (rounds : nat) :
  forall (a : Address) (acc l : list value) (w w' : World),
    disassembly_loop rounds a acc w = (Ok l, w') ->
    exists new,
      l = (acc ++ new)%list
      /\ (List.length new <= rounds)%nat
      /\ Forall (fun r => keys r = ["address"; "mnemonic"; "operands";
                                    "bytes"; "comment"]) new.
Proof.
  induction rounds as [|rounds IH]; intros a acc l w w' H; simpl in H.
  - injection H as <- _. exists []. rewrite app_nil_r. auto.
  - apply bind_ok in H as (instr & w1 & _ & H).
    destruct instr as [i|].
    + apply bind_ok in H as (c & w2 & _ & H).
      apply bind_ok in H as (next & w3 & _ & H).
      apply IH in H as (new & -> & Hlen & Hkeys).
      exists (instruction_record i c :: new).
      rewrite <- app_assoc. split; [reflexivity|].
      split; [simpl; lia|]. constructor; auto.
    + injection H as <- _. exists []. rewrite app_nil_r.
      split; [reflexivity|]. split; [simpl; lia | constructor].
Qed.

(** X14.  Whatever the engine does, a walk that returns has returned at most
    [max 0 num_instructions] records, each with exactly the fields address,
    mnemonic, operands, bytes and comment. *)
Theorem get_disassembly_bounded (w w' : World) (address : Address)
    (num_instructions : Z) (l : list value) :
  get_disassembly address num_instructions w = (Ok l, w') ->
  Z.of_nat (List.length l) <= Z.max 0 num_instructions
  /\ Forall (fun r => keys r = ["address"; "mnemonic"; "operands";
                                "bytes"; "comment"]) l.
Proof.
  intros H. unfold get_disassembly in H.
  apply bind_ok in H as (? & w1 & _ & H).
  apply disassembly_loop_extends in H as (new & -> & Hlen & Hkeys).
  simpl. split; [lia | exact Hkeys].
Qed.

End Enumeration.

Lemma get_disassembly_bounded_witness :
  exists l,
    fst (get_disassembly 4096 3 (Mem.boot Mem.sample)) = Ok l
    /\ Z.of_nat (List.length l) <= 3.
Proof.
  pose proof (@get_disassembly_bounded _ _ (Mem.boot Mem.sample) _ 4096 3 _
                eq_refl) as [Hlen _].
  eexists. split; [reflexivity | exact Hlen].
Defined.

Lemma analyze_program_decompiler_fault_witness :
  fst (@analyze_program Mem.space Mem.crashing Mem.boot_crashing)
    = Ok (@error_report Mem.space Mem.crashing
            (Mem.fault "DecompileException" "decompiler process died")
            "a.out").
Proof.
  destruct (@analyze_program_decompiler_fault Mem.space Mem.crashing
              Mem.boot_crashing Mem.sample 4096 Mem.main_fn
              (Mem.fault "DecompileException" "decompiler process died")
              "a.out" eq_refl eq_refl eq_refl eq_refl eq_refl eq_refl eq_refl)
    as [Hrun _].
  exact Hrun.
Defined.



(** ** Further properties: the walk under a smaller and a larger bound *)

Section WalkPrefix.

Context {AS : AddressSpace} {E : Engine}.

(** One round of the loop, as an equation on outcomes. *)
Lemma disassembly_loop_round (rounds : nat) (a : Address) (acc : list value)
    (w : World) :
  fst (disassembly_loop (S rounds) a acc w)
    = obind (ask "getListing" (getInstructionAt a) w) (fun instr =>
        match instr with
        | None => Ok acc
        | Some i =>
            obind (ask "getListing" (getComment EOL_COMMENT a) w) (fun c =>
            obind (addr_add (ins_getAddress i) (ins_getLength i)) (fun a' =>
              fst (disassembly_loop rounds a'
                     (acc ++ [instruction_record i c])%list w)))
        end).
Proof.
  simpl. unfold bind, query, ask, obind.
  destruct (currentProgram w) as [p|] eqn:Hp; [|reflexivity].
  destruct (getInstructionAt a p) as [[i|]|e]; try reflexivity.
  cbn [fst snd currentProgram record_call]. rewrite Hp.
  destruct (getComment EOL_COMMENT a p) as [c|e]; [|reflexivity].
  cbn [fst snd].
  destruct (addr_add (ins_getAddress i) (ins_getLength i)) as [a'|e];
    [|reflexivity].
  apply disassembly_loop_reads. reflexivity.
Qed.

Lemma disassembly_loop_prefix (w : World) (n : nat) :
  forall (m : nat) (a : Address) (acc l : list value),
    (n <= m)%nat ->
    fst (disassembly_loop m a acc w) = Ok l ->
    fst (disassembly_loop n a acc w)
      = Ok (firstn (List.length acc + n) l).
Proof.
  induction n as [|n IH]; intros m a acc l Hle Hm.
  - destruct (disassembly_loop m a acc w) as [r w'] eqn:Hrun.
    simpl in Hm. subst r.
    apply disassembly_loop_extends in Hrun as (new & -> & _).
    simpl. rewrite Nat.add_0_r, firstn_app, Nat.sub_diag, firstn_all.
    simpl. now rewrite app_nil_r.
  - destruct m as [|m]; [lia|].
    rewrite disassembly_loop_round in *.
    destruct (ask "getListing" (getInstructionAt a) w) as [[i|]|e];
      simpl in *; [| |discriminate Hm].
    + destruct (ask "getListing" (getComment EOL_COMMENT a) w) as [c|e];
        simpl in *; [|discriminate Hm].
      destruct (addr_add (ins_getAddress i) (ins_getLength i)) as [a'|e];
        simpl in *; [|discriminate Hm].
      rewrite (IH m a' _ l) by (auto; lia).
      rewrite length_app. simpl. do 2 f_equal. lia.
    + injection Hm as <-. now rewrite firstn_all2 by lia.
Qed.

Lemma disassembly_loop_final (w : World) (n : nat) :
  forall (m : nat) (a : Address) (acc l : list value),
    (n <= m)%nat ->
    fst (disassembly_loop n a acc w) = Ok l ->
    (List.length l < List.length acc + n)%nat ->
    fst (disassembly_loop m a acc w) = Ok l.
Proof.
  induction n as [|n IH]; intros m a acc l Hle Hn Hshort.
  - simpl in Hn. injection Hn as <-. lia.
  - destruct m as [|m]; [lia|].
    rewrite disassembly_loop_round in *.
    destruct (ask "getListing" (getInstructionAt a) w) as [[i|]|e];
      simpl in *; [| exact Hn | discriminate Hn].
    destruct (ask "getListing" (getComment EOL_COMMENT a) w) as [c|e];
      simpl in *; [|discriminate Hn].
    destruct (addr_add (ins_getAddress i) (ins_getLength i)) as [a'|e];
      simpl in *; [|discriminate Hn].
    apply IH; [lia | exact Hn |].
    rewrite length_app. simpl. lia.
Qed.

Lemma get_disassembly_loop (w : World) (address : Address)
    (num_instructions : Z) (l : list value) :
  fst (get_disassembly address num_instructions w) = Ok l ->
  forall n, fst (get_disassembly address n w)
            = fst (disassembly_loop (Z.to_nat n) address [] w).
Proof.
  unfold get_disassembly, bind, accessor.
  destruct (currentProgram w); [reflexivity | discriminate].
Qed.

(** X6.  Whatever the engine answers: when the walk with bound [m] returns
    the records [l], the walk from the same address with any bound [n <= m]
    returns too, and returns the first [max 0 n] records of [l].  A smaller
    bound never fails where the larger one succeeded, and raising the bound
    only appends records. *)
Theorem get_disassembly_bound_prefix (w : World) (address : Address) (n m : Z)
    (l : list value) :
  n <= m ->
  fst (get_disassembly address m w) = Ok l ->
  fst (get_disassembly address n w) = Ok (firstn (Z.to_nat n) l).
Proof.
  intros Hnm Hm.
  rewrite (get_disassembly_loop _ _ _ Hm n).
  rewrite (get_disassembly_loop _ _ _ Hm m) in Hm.
  apply disassembly_loop_prefix with (n := Z.to_nat n) in Hm; [|lia].
  exact Hm.
Qed.

(** X7.  Whatever the engine answers: when the walk with bound [n] returned
    fewer than [n] records, it stopped at an address with no instruction, and
    the walk from the same address with any bound [m >= n] returns the very
    same records. *)
Theorem get_disassembly_short_is_final (w : World) (address : Address)
    (n m : Z) (l : list value) :
  n <= m ->
  fst (get_disassembly address n w) = Ok l ->
  Z.of_nat (List.length l) < n ->
  fst (get_disassembly address m w) = Ok l.
Proof.
  intros Hnm Hn Hshort.
  rewrite (get_disassembly_loop _ _ _ Hn m).
  rewrite (get_disassembly_loop _ _ _ Hn n) in Hn.
  apply disassembly_loop_final with (n := Z.to_nat n); [lia | exact Hn |].
  simpl. lia.
Qed.

End WalkPrefix.

Lemma get_disassembly_bound_prefix_witness :
  exists l,
    fst (get_disassembly 4096 4 (Mem.boot Mem.sample)) = Ok l
    /\ fst (get_disassembly 4096 2 (Mem.boot Mem.sample)) = Ok (firstn 2 l).
Proof.
  eexists. split; [reflexivity|].
  apply (@get_disassembly_bound_prefix _ _ (Mem.boot Mem.sample) 4096 2 4).
  - lia.
  - reflexivity.
Defined.

Lemma get_disassembly_short_is_final_witness :
  exists l,
    List.length l = 2%nat
    /\ fst (get_disassembly 4104 100 (Mem.boot Mem.sample)) = Ok l.
Proof.
  destruct (fst (@get_disassembly Mem.space Mem.engine 4104 3
                   (Mem.boot Mem.sample)))
    as [l|e] eqn:Hl; [|vm_compute in Hl; discriminate Hl].
  assert (Hlen : List.length l = 2%nat).
  { vm_compute in Hl. injection Hl as <-. reflexivity. }
  exists l. split; [exact Hlen|].
  apply (@get_disassembly_short_is_final _ _ (Mem.boot Mem.sample) 4104 3 100).
  - lia.
  - exact Hl.
  - rewrite Hlen. lia.
Defined.

(** ** The byte column of the records *)

Section ByteColumn.

Context {AS : AddressSpace} {E : Engine}.

Lemma disassembly_loop_records (rounds : nat) :
  forall (a : Address) (acc l : list value) (w w' : World),
    disassembly_loop rounds a acc w = (Ok l, w') ->
    exists new,
      l = (acc ++ new)%list
      /\ Forall (fun r => exists p a0 i c,
                   currentProgram w = Some p
                   /\ getInstructionAt a0 p = Ok (Some i)
                   /\ r = instruction_record i c) new.
Proof.
  induction rounds as [|rounds IH]; intros a acc l w w' H; simpl in H.
  - injection H as <- _. exists []. rewrite app_nil_r. auto.
  - apply bind_ok in H as (instr & w1 & Hi & H).
    unfold query in Hi.
    destruct (currentProgram w) as [p|] eqn:Hp; [|discriminate Hi].
    injection Hi as Hi <-.
    destruct instr as [i|].
    + apply bind_ok in H as (c & w2 & Hc & H).
      unfold query in Hc. cbn [currentProgram record_call] in Hc.
      rewrite Hp in Hc. injection Hc as _ <-.
      apply bind_ok in H as (next & w3 & Hn & H).
      injection Hn as _ <-.
      apply IH in H as (new & -> & Hnew).
      exists (instruction_record i c :: new).
      rewrite <- app_assoc. split; [reflexivity|].
      constructor.
      * exists p, a, i, c. auto.
      * cbn [currentProgram record_call] in Hnew. rewrite Hp in Hnew.
        exact Hnew.
    + injection H as <- _. exists []. rewrite app_nil_r. auto.
Qed.

(** C9.  The bytes field of every instruction record is the space-joined
    list of one piece per raw byte of the instruction; the piece for byte
    [b] is exactly two lowercase hexadecimal digits denoting [b mod 256],
    the value of [b & 0xff], which lies in 0..255 also for a negative
    (signed) [b].  Every record a walk returns is such a record, of an
    instruction the listing gave. *)
Theorem instruction_record_bytes_two_digit_hex :
  (forall (i : Instruction) (comment : option string),
     exists pieces : list string,
       field "bytes" (instruction_record i comment)
         = Some (VStr (String.concat " " pieces))
       /\ Forall2 (fun b s =>
                     two_lower_hex s (b mod 256) = true
                     /\ String.length s = 2%nat
                     /\ Z.land b 255 = b mod 256
                     /\ 0 <= Z.land b 255 <= 255)
            (ins_getBytes i) pieces)
  /\ (forall (w w' : World) (a : Address) (n : Z) (l : list value),
        get_disassembly a n w = (Ok l, w') ->
        Forall (fun r =>
                  exists p a0 i pieces,
                    currentProgram w = Some p
                    /\ getInstructionAt a0 p = Ok (Some i)
                    /\ field "address" r = Some (VStr (addr_str (ins_getAddress i)))
                    /\ field "bytes" r = Some (VStr (String.concat " " pieces))
                    /\ Forall2 (fun b s =>
                                  two_lower_hex s (b mod 256) = true
                                  /\ String.length s = 2%nat
                                  /\ Z.land b 255 = b mod 256
                                  /\ 0 <= Z.land b 255 <= 255)
                         (ins_getBytes i) pieces) l).
Proof.
  assert (Hrec : forall (i : Instruction) (comment : option string),
     exists pieces : list string,
       field "bytes" (instruction_record i comment)
         = Some (VStr (String.concat " " pieces))
       /\ Forall2 (fun b s =>
                     two_lower_hex s (b mod 256) = true
                     /\ String.length s = 2%nat
                     /\ Z.land b 255 = b mod 256
                     /\ 0 <= Z.land b 255 <= 255)
            (ins_getBytes i) pieces).
  { intros i comment.
    destruct (render_bytes_pieces (ins_getBytes i)) as (pieces & Heq & Hall).
    exists pieces. split; [|exact Hall].
    rewrite instruction_record_bytes. now rewrite Heq. }
  split; [exact Hrec|].
  intros w w' a n l H. unfold get_disassembly in H.
  apply bind_ok in H as ([] & w1 & Hacc & H).
  unfold accessor in Hacc.
  destruct (currentProgram w) as [p|] eqn:Hp; [|discriminate Hacc].
  injection Hacc as <-.
  apply disassembly_loop_records in H as (new & -> & Hnew).
  simpl. eapply Forall_impl; [|exact Hnew].
  intros r (p0 & a0 & i & c & Hp0 & Hi & ->).
  destruct (Hrec i c) as (pieces & Hbytes & Hall).
  exists p0, a0, i, pieces. rewrite Hp in Hp0. injection Hp0 as <-.
  repeat split; auto.
Qed.

End ByteColumn.

Lemma instruction_record_bytes_two_digit_hex_witness :
  exists l,
    fst (get_disassembly 4097 1 (Mem.boot Mem.sample)) = Ok l
    /\ field "bytes" (hd VNone l) = Some (VStr "89 e5")
    /\ Forall (fun r =>
                 exists pieces,
                   field "bytes" r = Some (VStr (String.concat " " pieces))
                   /\ Forall (fun s => String.length s = 2%nat) pieces) l.
Proof.
  destruct instruction_record_bytes_two_digit_hex as [_ Hwalk].
  pose proof (Hwalk (Mem.boot Mem.sample) _ 4097 1 _ eq_refl) as Hall.
  eexists. split; [reflexivity|]. split; [reflexivity|].
  eapply Forall_impl; [|exact Hall].
  intros r (p & a0 & i & pieces & _ & _ & _ & Hbytes & Hpieces).
  exists pieces. split; [exact Hbytes|].
  clear - Hpieces. induction Hpieces as [|b s bs ps (_ & Hlen & _) _ IH];
    constructor; auto.
Defined.

(** ** The report, step by step *)

Section ReportOutcome.

Context {AS : AddressSpace} {E : Engine}.







End ReportOutcome.


